(** * The conntrack input plugin: a shallow embedding of
      [plugins/inputs/conntrack/conntrack.go] and the properties of its
      [Gather] cycle.

    The Go code walks [Dirs] x [Files], turns every file it can read into a
    field of one measurement, optionally asks the platform provider for the
    conntrack statistics, and fails the cycle when no field was collected.

    Everything [Gather] does to the outside world (the file system, the
    provider, the accumulator) is recorded, in program order, in a trace of
    events; the [fields] map is a [gmap] from metric keys to values. *)

From Stdlib Require Import Strings.Ascii Floats.PrimFloat Numbers.Cyclic.Int63.Uint63.
From stdpp Require Import strings gmap list pretty.

Open Scope string_scope.
Open Scope list_scope.

(** ** Values and collaborators *)

(** What the code stores under [interface{}]: a [float64] parsed from a file,
    or one of the [uint32] counters of [net.ConntrackStat]. *)
Inductive iface : Type :=
| Float64 (x : float)
| Uint32 (n : N).

(** [net.ConntrackStat] (gopsutil): seventeen [uint32] counters.  The values
    are only carried from the provider to the accumulator, never computed
    with, so they are kept as [N]. *)
Record ConntrackStat : Type := {
  Entries : N;
  Searched : N;
  Found : N;
  New : N;
  Invalid : N;
  Ignore : N;
  Delete : N;
  DeleteList : N;
  Insert : N;
  InsertFailed : N;
  Drop : N;
  EarlyDrop : N;
  IcmpError : N;
  ExpectNew : N;
  ExpectCreate : N;
  ExpectDelete : N;
  SearchRestart : N
}.

(** The one method of [system.PS] the plugin calls.  A Go function returning
    [([]net.ConntrackStat, error)] may return a slice together with an
    error; [None] is the nil error. *)
Record PS : Type := {
  NetConntrack : bool -> list ConntrackStat * option string
}.

(** What a path is to [os.Stat] and [ioutil.ReadFile]:
    - [Absent]: [os.Stat] fails (no such file, or no such directory);
    - [Unreadable e]: [os.Stat] succeeds and [ioutil.ReadFile] fails with [e];
    - [Regular s]: both succeed and the contents are [s]. *)
Inductive node : Type :=
| Absent
| Unreadable (err : string)
| Regular (contents : string).

Definition filesystem : Type := string -> node.

(** The functions of the Go standard library whose text is not part of the
    plugin.  The development is parametric in them: [Join] is
    [filepath.Join], [TrimSpace] is [strings.TrimSpace], and [ParseFloat s]
    is [strconv.ParseFloat(s, 64)], which returns a value also when it
    returns an error. *)
Record stdlib : Type := {
  Join : string -> string -> string;
  TrimSpace : string -> string;
  ParseFloat : string -> float * option string
}.

(** ** The accumulator and the trace *)

Inductive event : Type :=
| EvStat (path : string)
| EvReadFile (path : string)
| EvNetConntrack (perCPU : bool)
| EvAddError (msg : string)
| EvAddCounter (name : string) (flds : gmap string iface) (tags : gmap string string)
| EvAddFields (name : string) (flds : gmap string iface) (tags : gmap string string).

(** How a call of [Gather] ends: it returns an [error] ([None] is nil), or
    it panics on the nil interface [c.ps]. *)
Inductive outcome : Type :=
| Return (err : option string)
| Panic.

(** ** The plugin *)

Record Conntrack : Type := {
  ps : option PS;
  Path : string;
  Dirs : list string;
  Files : list string;
  CollectStats : bool;
  PerCPU : bool
}.

Definition inputName : string := "conntrack".

(** The package-level variables [dfltDirs] and [dfltFiles]; the tests
    overwrite them, so [Gather] reads them from the package state. *)
Record pkgvars : Type := {
  dfltDirs : list string;
  dfltFiles : list string
}.

Definition pkg_init : pkgvars := {|
  dfltDirs := ["/proc/sys/net/ipv4/netfilter"; "/proc/sys/net/netfilter"];
  dfltFiles := ["ip_conntrack_count"; "ip_conntrack_max";
                "nf_conntrack_count"; "nf_conntrack_max"]
|}.

Definition NewConntrack (p : option PS) : Conntrack := {|
  ps := p;
  Path := "";
  Dirs := [];
  Files := [];
  CollectStats := true;
  PerCPU := false
|}.

(** The factory that [init] registers: [&Conntrack{}], every field at its
    zero value (a nil [ps], empty slices, both booleans false). *)
Definition init_factory : Conntrack := {|
  ps := None;
  Path := "";
  Dirs := [];
  Files := [];
  CollectStats := false;
  PerCPU := false
|}.

(** [c.Dirs = dfltDirs] copies a slice header, so the collector then shares
    the array of the default.  Lists are values here: this is exact as long
    as no element of a default slice is written in place, which nothing in
    the package does (the tests re-assign the two variables). *)
Definition setDefaults (g : pkgvars) (c : Conntrack) : Conntrack :=
  let c1 :=
    if decide (length (Dirs c) = 0)
    then {| ps := ps c; Path := Path c; Dirs := dfltDirs g; Files := Files c;
            CollectStats := CollectStats c; PerCPU := PerCPU c |}
    else c in
  if decide (length (Files c1) = 0)
  then {| ps := ps c1; Path := Path c1; Dirs := Dirs c1; Files := dfltFiles g;
          CollectStats := CollectStats c1; PerCPU := PerCPU c1 |}
  else c1.

(** *** [strings.SplitN]

    [skip n s] is the slice [s[n:]]. *)
Fixpoint skip (n : nat) (s : string) : string :=
  match n, s with
  | S n', String _ s' => skip n' s'
  | _, _ => s
  end.

(** [cut sep s] finds the first occurrence of [sep] in [s] (the index [m]
    of [strings.Index]) and returns [s[:m]] and [s[m+len(sep):]]. *)
Fixpoint cut (sep s : string) {struct s} : option (string * string) :=
  if String.prefix sep s
  then Some ("", skip (String.length sep) s)
  else match s with
       | EmptyString => None
       | String a s' =>
           match cut sep s' with
           | Some (before, after) => Some (String a before, after)
           | None => None
           end
       end.

(** The loop of [genSplit]: at most [k] cuts, the rest of the string is the
    last piece. *)
Fixpoint splitLoop (k : nat) (sep s : string) : list string :=
  match k with
  | O => [s]
  | S k' =>
      match cut sep s with
      | None => [s]
      | Some (before, after) => before :: splitLoop k' sep after
      end
  end.

(** [strings.SplitN(s, sep, n)] for a non-empty separator and [n >= 0]
    ([n = 0] gives nil).  The plugin calls it with ["_"] and [2]. *)
Definition SplitN (s sep : string) (n : nat) : list string :=
  match n with
  | O => []
  | S k => splitLoop k sep s
  end.

(** The first lines of the loop body: [parts := strings.SplitN(file, "_", 2)],
    the test [len(parts) < 2] ([None]: the candidate is skipped), and
    [metricKey = "ip_" + parts[1]]. *)
Definition metricKey (file : string) : option string :=
  let parts := SplitN file "_" 2 in
  if decide (length parts < 2) then None
  else Some ("ip_" +:+ nth 1 parts "").

(** *** State of one cycle *)

Record state : Type := {
  fields : gmap string iface;
  trace : list event
}.

Definition emit (e : event) (st : state) : state :=
  {| fields := fields st; trace := trace st ++ [e] |}.

Definition st_init : state := {| fields := ∅; trace := [] |}.

(** [os.Stat]: [Some] is a non-nil error. *)
Definition os_Stat (fs : filesystem) (fName : string) : option string :=
  match fs fName with
  | Absent => Some ("stat " +:+ fName +:+ ": no such file or directory")
  | _ => None
  end.

Definition ioutil_ReadFile (fs : filesystem) (fName : string)
  : string * option string :=
  match fs fName with
  | Regular s => (s, None)
  | Unreadable e => ("", Some e)
  | Absent => ("", Some ("open " +:+ fName +:+ ": no such file or directory"))
  end.

Section Cycle.

Variable L : stdlib.
Variable g : pkgvars.
Variable fs : filesystem.

(** The body of the inner loop, for one directory and one candidate file. *)
Definition visit (dir file : string) (st : state) : state :=
  match metricKey file with
  | None => st
  | Some key =>
      let fName := Join L dir file in
      let st := emit (EvStat fName) st in
      match os_Stat fs fName with
      | Some _ => st
      | None =>
          let st := emit (EvReadFile fName) st in
          match ioutil_ReadFile fs fName with
          | (_, Some err) =>
              emit (EvAddError
                      ("E! failed to read file '" +:+ fName +:+ "': " +:+ err)) st
          | (contents, None) =>
              let v := TrimSpace L contents in
              let '(x, err) := ParseFloat L v in
              let st := {| fields := <[key := Float64 x]> (fields st);
                           trace := trace st |} in
              match err with
              | Some e =>
                  emit (EvAddError
                          ("E! failed to parse metric, expected number but " +:+
                           " found '" +:+ v +:+ "': " +:+ e)) st
              | None => st
              end
          end
      end
  end.

Definition files_loop (dir : string) (files : list string) (st : state) : state :=
  fold_left (fun st file => visit dir file st) files st.

Definition dirs_loop (dirs files : list string) (st : state) : state :=
  fold_left (fun st dir => files_loop dir files st) dirs st.

(** *** The statistics pass *)

Definition cpuTags (perCPU : bool) (i : nat) : gmap string string :=
  if perCPU then {[ "cpu" := "cpu" +:+ pretty i ]} else {[ "cpu" := "all" ]}.

Definition statFields (sts : ConntrackStat) : gmap string iface :=
  list_to_map [
    ("entries", Uint32 (Entries sts));
    ("searched", Uint32 (Searched sts));
    ("found", Uint32 (Found sts));
    ("new", Uint32 (New sts));
    ("invalid", Uint32 (Invalid sts));
    ("ignore", Uint32 (Ignore sts));
    ("delete", Uint32 (Delete sts));
    ("delete_list", Uint32 (DeleteList sts));
    ("insert", Uint32 (Insert sts));
    ("insert_failed", Uint32 (InsertFailed sts));
    ("drop", Uint32 (Drop sts));
    ("early_drop", Uint32 (EarlyDrop sts));
    ("icmp_error", Uint32 (IcmpError sts));
    ("expect_new", Uint32 (ExpectNew sts));
    ("expect_create", Uint32 (ExpectCreate sts));
    ("expect_delete", Uint32 (ExpectDelete sts));
    ("search_restart", Uint32 (SearchRestart sts))
  ].

(** [for i, sts := range stats { ... acc.AddCounter(...) }], from index [i]. *)
Fixpoint range_stats (perCPU : bool) (i : nat) (stats : list ConntrackStat)
    (st : state) : state :=
  match stats with
  | [] => st
  | sts :: rest =>
      range_stats perCPU (S i) rest
        (emit (EvAddCounter inputName (statFields sts) (cpuTags perCPU i)) st)
  end.

(** [None]: the call [c.ps.NetConntrack] on a nil [c.ps] panics. *)
Definition stats_pass (c : Conntrack) (st : state) : option state :=
  if CollectStats c then
    match ps c with
    | None => None
    | Some p =>
        let st := emit (EvNetConntrack (PerCPU c)) st in
        let '(stats, err) := NetConntrack p (PerCPU c) in
        let st :=
          match err with
          | Some e =>
              emit (EvAddError
                      ("E! failed to retrieve conntrack statistics: " +:+ e)) st
          | None => st
          end in
        Some (range_stats (PerCPU c) 0 stats st)
    end
  else Some st.

Definition errNotLoaded : string :=
  "Conntrack input failed to collect metrics. " +:+
  "Is the conntrack kernel module loaded?".

(** The end of [Gather], from the state the two passes leave. *)
Definition finish (st : state) : list event * outcome :=
  if decide (size (fields st) = 0)
  then (trace st, Return (Some errNotLoaded))
  else (trace (emit (EvAddFields inputName (fields st) ∅) st), Return None).

(** [Gather]: the collector as the call leaves it ([setDefaults] writes the
    receiver), the events of the cycle in program order, and how the call
    ends. *)
Definition Gather (c : Conntrack) : Conntrack * list event * outcome :=
  let c' := setDefaults g c in
  let st := dirs_loop (Dirs c') (Files c') st_init in
  match stats_pass c' st with
  | None => (c', trace st, Panic)
  | Some st' => let '(tr, r) := finish st' in (c', tr, r)
  end.

(** The state [Gather] is in after its double loop; its [fields] are the
    field set of the cycle. *)
Definition file_pass (c : Conntrack) : state :=
  let c' := setDefaults g c in
  dirs_loop (Dirs c') (Files c') st_init.

End Cycle.

(** ** Reading a trace *)

Definition errors_of (tr : list event) : list string :=
  omap (fun e => match e with EvAddError m => Some m | _ => None end) tr.

Definition counters_of (tr : list event)
  : list (string * gmap string iface * gmap string string) :=
  omap (fun e => match e with
                 | EvAddCounter n f t => Some (n, f, t)
                 | _ => None
                 end) tr.

Definition fields_records_of (tr : list event)
  : list (string * gmap string iface * gmap string string) :=
  omap (fun e => match e with
                 | EvAddFields n f t => Some (n, f, t)
                 | _ => None
                 end) tr.

Definition provider_calls_of (tr : list event) : list bool :=
  omap (fun e => match e with EvNetConntrack b => Some b | _ => None end) tr.

(** The three components of the result of [Gather]. *)
Definition collector_after (r : Conntrack * list event * outcome) : Conntrack := r.1.1.
Definition events (r : Conntrack * list event * outcome) : list event := r.1.2.
Definition result (r : Conntrack * list event * outcome) : outcome := r.2.

(** ** The loop as a list of candidates *)

(** The (directory, file) pairs in the order the double loop visits them. *)
Definition candidates (dirs files : list string) : list (string * string) :=
  flat_map (fun dir => map (fun file => (dir, file)) files) dirs.

Definition visit_all (L : stdlib) (fs : filesystem)
    (cands : list (string * string)) (st : state) : state :=
  fold_left (fun st c => visit L fs c.1 c.2 st) cands st.

(** What one candidate does to the [fields] map, and the events it adds:
    the two halves of [visit] (lemma [visit_decompose]). *)
Definition field_update (L : stdlib) (fs : filesystem) (dir file : string)
    (m : gmap string iface) : gmap string iface :=
  match metricKey file with
  | None => m
  | Some key =>
      match fs (Join L dir file) with
      | Regular s => <[key := Float64 (ParseFloat L (TrimSpace L s)).1]> m
      | _ => m
      end
  end.

Definition visit_events (L : stdlib) (fs : filesystem) (dir file : string)
  : list event :=
  trace (visit L fs dir file st_init).

(** The filename contains the byte ['_']. *)
Fixpoint has_underscore (s : string) : bool :=
  match s with
  | EmptyString => false
  | String a s' => if Ascii.eqb a "_"%char then true else has_underscore s'
  end.

(** ** A reference instance of the library functions

    Closed examples need the three library functions to compute.  This
    instance implements them on the inputs the examples use: paths made of a
    clean directory and a base name, ASCII white space, and files holding a
    string of decimal digits (an integer below 2^53) or no digit at all, on
    which they are what the Go functions return. *)

Definition is_space (a : ascii) : bool :=
  match nat_of_ascii a with
  | 9 | 10 | 11 | 12 | 13 | 32 => true
  | _ => false
  end.

Fixpoint trim_left (s : string) : string :=
  match s with
  | String a s' => if is_space a then trim_left s' else s
  | EmptyString => EmptyString
  end.

Fixpoint trim_right (s : string) : string :=
  match s with
  | EmptyString => EmptyString
  | String a s' =>
      match trim_right s' with
      | EmptyString => if is_space a then EmptyString else String a EmptyString
      | t => String a t
      end
  end.

Definition is_digit (a : ascii) : bool :=
  ((48 <=? nat_of_ascii a)%nat && (nat_of_ascii a <=? 57)%nat)%bool.

Fixpoint digits_value (acc : Z) (s : string) : option Z :=
  match s with
  | EmptyString => Some acc
  | String a s' =>
      if is_digit a
      then digits_value (10 * acc + (Z.of_nat (nat_of_ascii a) - 48))%Z s'
      else None
  end.

Definition dquote : string := String (ascii_of_nat 34) EmptyString.

Definition errSyntax (s : string) : string :=
  "strconv.ParseFloat: parsing " +:+ dquote +:+ s +:+ dquote +:+ ": invalid syntax".

Definition ref_ParseFloat (s : string) : float * option string :=
  match s with
  | EmptyString => (0%float, Some (errSyntax s))
  | _ =>
      match digits_value 0 s with
      | Some z => (PrimFloat.of_uint63 (Uint63.of_Z z), None)
      | None => (0%float, Some (errSyntax s))
      end
  end.

Definition refLib : stdlib := {|
  Join := fun dir file => dir +:+ "/" +:+ file;
  TrimSpace := fun s => trim_right (trim_left s);
  ParseFloat := ref_ParseFloat
|}.

(** A file system given by the list of its entries; every other path is
    absent. *)
Definition fs_of (entries : list (string * node)) : filesystem :=
  fun path =>
    match list_find (fun e => String.eqb e.1 path) entries with
    | Some (_, (_, n)) => n
    | None => Absent
    end.

(** A collector as the configuration loader leaves it. *)
Definition configured (p : option PS) (dirs files : list string)
    (collect_stats percpu : bool) : Conntrack := {|
  ps := p;
  Path := "";
  Dirs := dirs;
  Files := files;
  CollectStats := collect_stats;
  PerCPU := percpu
|}.

(** The entry of [TestCollectStats]. *)
Definition sts_test : ConntrackStat := {|
  Entries := 1234; Searched := 10; Found := 1; New := 5; Invalid := 43;
  Ignore := 13; Delete := 3; DeleteList := 5; Insert := 9;
  InsertFailed := 20; Drop := 49; EarlyDrop := 7; IcmpError := 21;
  ExpectNew := 12; ExpectCreate := 44; ExpectDelete := 53;
  SearchRestart := 31
|}.

Definition ps_ok (stats : list ConntrackStat) : PS :=
  {| NetConntrack := fun _ => (stats, None) |}.

(** A provider that fails the Go way: a nil slice and an error. *)
Definition ps_failing : PS :=
  {| NetConntrack := fun _ => ([], Some "open /proc/net/stat/nf_conntrack: no such file or directory") |}.

(** The events of the statistics pass ([None]: it panics), as a function of
    the collector alone (lemma [stats_pass_decompose] relates it to
    [stats_pass]). *)
Definition stats_events (c : Conntrack) : option (list event) :=
  if CollectStats c then
    match ps c with
    | None => None
    | Some p =>
        Some ([EvNetConntrack (PerCPU c)] ++
              match (NetConntrack p (PerCPU c)).2 with
              | Some e =>
                  [EvAddError
                     ("E! failed to retrieve conntrack statistics: " +:+ e)]
              | None => []
              end ++
              imap (fun i sts =>
                      EvAddCounter inputName (statFields sts)
                        (cpuTags (PerCPU c) i))
                   (NetConntrack p (PerCPU c)).1)
    end
  else Some [].

(** The events of the file pass: file-system calls and error reports. *)
Definition file_event (e : event) : Prop :=
  match e with
  | EvStat _ | EvReadFile _ | EvAddError _ => True
  | _ => False
  end.

(** The paths given to [os.Stat] and to [ioutil.ReadFile], in call order. *)
Definition stats_of (tr : list event) : list string :=
  omap (fun e => match e with EvStat p => Some p | _ => None end) tr.

Definition reads_of (tr : list event) : list string :=
  omap (fun e => match e with EvReadFile p => Some p | _ => None end) tr.

#[global] Instance node_eq_dec : EqDecision node.
Proof. solve_decision. Defined.

(** A candidate the loop looks at: its filename has a metric key. *)
Definition keyed (cand : string * string) : Prop := is_Some (metricKey cand.2).

(** The events that are not file-system calls: the provider call and what
    goes to the accumulator. *)
Definition sink_event (e : event) : Prop :=
  match e with
  | EvStat _ | EvReadFile _ => False
  | _ => True
  end.

(** The oracle of [TestConfigsUsed]:
    [fix := func(s string) string { return strings.Replace(s, "nf_", "ip_", 1) }].
    [Replace1 s old new] is [strings.Replace(s, old, new, 1)] for a non-empty
    [old]: the first occurrence of [old], if there is one, becomes [new].
    The function is [fix] in the test; the name is reserved here. *)
Definition Replace1 (s old new : string) : string :=
  match cut old s with
  | Some (before, after) => before +:+ new +:+ after
  | None => s
  end.

Definition fix_ (s : string) : string := Replace1 s "nf_" "ip_".

(** Modelled from the spec: the platform statistics provider, whose code is
    not part of the plugin, returns "an ordered sequence of raw counter
    structs or an error" (section 6), "a sequence-or-error" (section 9).
    With an error come no entries. *)
Definition provider_contract (p : PS) : Prop :=
  forall perCPU stats e, NetConntrack p perCPU = (stats, Some e) -> stats = [].

(** [restoreDflts] of the test file: it re-assigns the two package
    variables ([dfltFiles = savedFiles; dfltDirs = savedDirs]) and writes no
    element of the slices they held. *)
Definition restoreDflts (savedFiles savedDirs : list string) (g : pkgvars)
  : pkgvars :=
  {| dfltDirs := savedDirs; dfltFiles := savedFiles |}.

(** The collector [init] registers, after the configuration loader has set
    [collect_stats = true] on it. *)
Definition registered_with_stats : Conntrack := {|
  ps := ps init_factory;
  Path := Path init_factory;
  Dirs := Dirs init_factory;
  Files := Files init_factory;
  CollectStats := true;
  PerCPU := PerCPU init_factory
|}.

(** * Properties *)

(** ** Splitting a filename *)

Lemma prefix_underscore (a : ascii) (s : string) :
  String.prefix "_" (String a s) = Ascii.eqb a "_".
Proof.
  cbn [String.prefix].
  destruct (ascii_dec "_" a) as [<-|Hne]; [by destruct s|].
  symmetry. apply Ascii.eqb_neq. congruence.
Qed.

Lemma cut_underscore_cons (a : ascii) (s : string) :
  cut "_" (String a s) =
  if Ascii.eqb a "_" then Some ("", s)
  else match cut "_" s with
       | Some (before, after) => Some (String a before, after)
       | None => None
       end.
Proof.
  change (cut "_" (String a s)) with
    (if String.prefix "_" (String a s) then Some ("", skip 1 (String a s))
     else match cut "_" s with
          | Some (before, after) => Some (String a before, after)
          | None => None
          end).
  rewrite prefix_underscore. reflexivity.
Qed.

Lemma cut_no_underscore (s : string) :
  has_underscore s = false -> cut "_" s = None.
Proof.
  induction s as [|a s IH]; [reflexivity|].
  rewrite cut_underscore_cons. cbn [has_underscore].
  destruct (Ascii.eqb a "_"); [discriminate|].
  intros Hs. by rewrite (IH Hs).
Qed.

Lemma append_nil_l (s : string) : "" +:+ s = s.
Proof. reflexivity. Qed.

Lemma append_cons (a : ascii) (s t : string) :
  String a s +:+ t = String a (s +:+ t).
Proof. reflexivity. Qed.

Lemma cut_first_underscore (pre suf : string) :
  has_underscore pre = false ->
  cut "_" (pre +:+ "_" +:+ suf) = Some (pre, suf).
Proof.
  induction pre as [|a pre IH]; cbn [has_underscore].
  - intros _.
    by rewrite append_nil_l, append_cons, append_nil_l, cut_underscore_cons.
  - rewrite append_cons, cut_underscore_cons.
    destruct (Ascii.eqb a "_"); [discriminate|].
    intros Hp. by rewrite (IH Hp).
Qed.

Lemma metricKey_no_underscore (file : string) :
  has_underscore file = false -> metricKey file = None.
Proof.
  intros H. unfold metricKey, SplitN, splitLoop.
  rewrite (cut_no_underscore _ H). reflexivity.
Qed.

Lemma metricKey_split (pre suf : string) :
  has_underscore pre = false ->
  metricKey (pre +:+ "_" +:+ suf) = Some ("ip_" +:+ suf).
Proof.
  intros H. unfold metricKey, SplitN, splitLoop.
  rewrite (cut_first_underscore _ _ H). reflexivity.
Qed.

(** A filename has a metric key exactly when it contains an underscore. *)
Lemma metricKey_Some_iff (file : string) :
  is_Some (metricKey file) <-> has_underscore file = true.
Proof.
  split.
  - intros [k Hk]. destruct (has_underscore file) eqn:Hu; [reflexivity|].
    rewrite (metricKey_no_underscore _ Hu) in Hk. discriminate.
  - intros Hu. unfold metricKey, SplitN, splitLoop.
    assert (is_Some (cut "_" file)) as [[b r] ->]; [|by eexists].
    induction file as [|a s IH]; [discriminate|].
    rewrite cut_underscore_cons. cbn [has_underscore] in Hu.
    destruct (Ascii.eqb a "_"); [by eexists|].
    destruct (IH Hu) as [[b r] ->]. by eexists.
Qed.

(** ** One candidate *)

Section Visit.

Variable L : stdlib.
Variable fs : filesystem.

(** The loop body is a writer: it updates the map by [field_update] and
    appends events that do not depend on the state it starts from. *)
Lemma visit_decompose (dir file : string) (st : state) :
  visit L fs dir file st =
  {| fields := field_update L fs dir file (fields st);
     trace := trace st ++ visit_events L fs dir file |}.
Proof.
  unfold visit_events, field_update, visit.
  destruct st as [m tr]. simpl.
  destruct (metricKey file) as [key|]; simpl.
  2: { by rewrite app_nil_r. }
  unfold os_Stat, ioutil_ReadFile.
  destruct (fs (Join L dir file)) as [|e|s]; simpl; try reflexivity.
  - unfold emit; simpl. by rewrite <- !app_assoc.
  - destruct (ParseFloat L (TrimSpace L s)) as [x [e|]]; simpl;
      unfold emit; simpl; by rewrite <- !app_assoc.
Qed.

Lemma fields_visit (dir file : string) (st : state) :
  fields (visit L fs dir file st) = field_update L fs dir file (fields st).
Proof. by rewrite visit_decompose. Qed.

Lemma trace_visit (dir file : string) (st : state) :
  trace (visit L fs dir file st) = trace st ++ visit_events L fs dir file.
Proof. by rewrite visit_decompose. Qed.

Lemma visit_skipped (dir file : string) (st : state) :
  metricKey file = None -> visit L fs dir file st = st.
Proof. intros H. unfold visit. by rewrite H. Qed.

(** A file that exists and is readable is written to the map whatever
    [ParseFloat] says of its contents: the assignment
    [fields[metricKey], err = strconv.ParseFloat(v, 64)] comes before the
    test of [err]. *)
Lemma visit_regular (dir file key s : string) (st : state) :
  metricKey file = Some key ->
  fs (Join L dir file) = Regular s ->
  fields (visit L fs dir file st) =
  <[key := Float64 (ParseFloat L (TrimSpace L s)).1]> (fields st).
Proof.
  intros Hk Hs. rewrite fields_visit. unfold field_update. by rewrite Hk, Hs.
Qed.

Lemma visit_parse_failure (dir file key s e : string) (x : float) (st : state) :
  metricKey file = Some key ->
  fs (Join L dir file) = Regular s ->
  ParseFloat L (TrimSpace L s) = (x, Some e) ->
  visit L fs dir file st =
  {| fields := <[key := Float64 x]> (fields st);
     trace := trace st ++
       [EvStat (Join L dir file); EvReadFile (Join L dir file);
        EvAddError ("E! failed to parse metric, expected number but " +:+
                    " found '" +:+ TrimSpace L s +:+ "': " +:+ e)] |}.
Proof.
  intros Hk Hs Hp. unfold visit, os_Stat, ioutil_ReadFile.
  rewrite Hk, Hs. simpl. rewrite Hp. unfold emit. simpl.
  by rewrite <- !app_assoc.
Qed.

Lemma visit_unreadable (dir file key e : string) (st : state) :
  metricKey file = Some key ->
  fs (Join L dir file) = Unreadable e ->
  visit L fs dir file st =
  {| fields := fields st;
     trace := trace st ++
       [EvStat (Join L dir file); EvReadFile (Join L dir file);
        EvAddError ("E! failed to read file '" +:+ Join L dir file +:+
                    "': " +:+ e)] |}.
Proof.
  intros Hk Hs. unfold visit, os_Stat, ioutil_ReadFile.
  rewrite Hk, Hs. simpl. unfold emit. simpl. by rewrite <- !app_assoc.
Qed.

Lemma visit_absent (dir file key : string) (st : state) :
  metricKey file = Some key ->
  fs (Join L dir file) = Absent ->
  visit L fs dir file st =
  {| fields := fields st; trace := trace st ++ [EvStat (Join L dir file)] |}.
Proof.
  intros Hk Hs. unfold visit, os_Stat. by rewrite Hk, Hs.
Qed.

End Visit.

(** ** The double loop *)

Section Loops.

Variable L : stdlib.
Variable fs : filesystem.

Lemma visit_all_app (l1 l2 : list (string * string)) (st : state) :
  visit_all L fs (l1 ++ l2) st = visit_all L fs l2 (visit_all L fs l1 st).
Proof. apply fold_left_app. Qed.

Lemma files_loop_visit_all (dir : string) (files : list string) (st : state) :
  files_loop L fs dir files st =
  visit_all L fs (map (fun file => (dir, file)) files) st.
Proof.
  unfold files_loop, visit_all. revert st.
  induction files as [|f files IH]; intros st; simpl; [reflexivity|apply IH].
Qed.

Lemma dirs_loop_visit_all (dirs files : list string) (st : state) :
  dirs_loop L fs dirs files st = visit_all L fs (candidates dirs files) st.
Proof.
  unfold dirs_loop, candidates. revert st.
  induction dirs as [|d dirs IH]; intros st; simpl; [reflexivity|].
  rewrite visit_all_app, <- files_loop_visit_all. apply IH.
Qed.

Lemma fields_visit_all (cands : list (string * string)) (st : state) :
  fields (visit_all L fs cands st) =
  fold_left (fun m c => field_update L fs c.1 c.2 m) cands (fields st).
Proof.
  unfold visit_all. revert st.
  induction cands as [|[d f] cands IH]; intros st; simpl; [reflexivity|].
  rewrite IH. by rewrite fields_visit.
Qed.

Lemma trace_visit_all (cands : list (string * string)) (st : state) :
  trace (visit_all L fs cands st) =
  trace st ++ flat_map (fun c => visit_events L fs c.1 c.2) cands.
Proof.
  unfold visit_all. revert st.
  induction cands as [|[d f] cands IH]; intros st; simpl.
  - by rewrite app_nil_r.
  - rewrite IH, trace_visit. by rewrite <- app_assoc.
Qed.

Lemma visit_events_file (dir file : string) :
  Forall file_event (visit_events L fs dir file).
Proof.
  unfold visit_events, visit, os_Stat, ioutil_ReadFile.
  destruct (metricKey file) as [key|]; simpl; [|constructor].
  destruct (fs (Join L dir file)) as [|e|s]; simpl;
    [repeat constructor..|].
  destruct (ParseFloat L (TrimSpace L s)) as [x [e|]]; simpl;
    repeat constructor.
Qed.

Lemma visit_all_events_file (cands : list (string * string)) :
  Forall file_event (flat_map (fun c => visit_events L fs c.1 c.2) cands).
Proof.
  induction cands as [|[d f] cands IH]; simpl; [constructor|].
  apply Forall_app. split; [apply visit_events_file|apply IH].
Qed.

End Loops.

Lemma omap_file_events {B : Type} (pr : event -> option B) (tr : list event) :
  (forall e, file_event e -> pr e = None) ->
  Forall file_event tr -> omap pr tr = [].
Proof.
  intros Hpr. induction 1 as [|e tr He _ IH]; [reflexivity|].
  simpl. rewrite (Hpr e He). exact IH.
Qed.

Lemma counters_of_file_events (tr : list event) :
  Forall file_event tr -> counters_of tr = [].
Proof. apply omap_file_events. by intros []. Qed.

Lemma fields_records_of_file_events (tr : list event) :
  Forall file_event tr -> fields_records_of tr = [].
Proof. apply omap_file_events. by intros []. Qed.

Lemma provider_calls_of_file_events (tr : list event) :
  Forall file_event tr -> provider_calls_of tr = [].
Proof. apply omap_file_events. by intros []. Qed.

Lemma errors_of_app (tr1 tr2 : list event) :
  errors_of (tr1 ++ tr2) = errors_of tr1 ++ errors_of tr2.
Proof. apply omap_app. Qed.

Lemma counters_of_app (tr1 tr2 : list event) :
  counters_of (tr1 ++ tr2) = counters_of tr1 ++ counters_of tr2.
Proof. apply omap_app. Qed.

Lemma fields_records_of_app (tr1 tr2 : list event) :
  fields_records_of (tr1 ++ tr2) =
  fields_records_of tr1 ++ fields_records_of tr2.
Proof. apply omap_app. Qed.

Lemma provider_calls_of_app (tr1 tr2 : list event) :
  provider_calls_of (tr1 ++ tr2) =
  provider_calls_of tr1 ++ provider_calls_of tr2.
Proof. apply omap_app. Qed.

(** ** [setDefaults] *)

Lemma setDefaults_ps (g : pkgvars) (c : Conntrack) : ps (setDefaults g c) = ps c.
Proof. unfold setDefaults. repeat case_decide; reflexivity. Qed.

Lemma setDefaults_CollectStats (g : pkgvars) (c : Conntrack) :
  CollectStats (setDefaults g c) = CollectStats c.
Proof. unfold setDefaults. repeat case_decide; reflexivity. Qed.

Lemma setDefaults_PerCPU (g : pkgvars) (c : Conntrack) :
  PerCPU (setDefaults g c) = PerCPU c.
Proof. unfold setDefaults. repeat case_decide; reflexivity. Qed.

Lemma setDefaults_idem (g : pkgvars) (c : Conntrack) :
  setDefaults g (setDefaults g c) = setDefaults g c.
Proof.
  destruct c as [p path dirs files cs pc]. unfold setDefaults. simpl.
  destruct dirs as [|d dirs], files as [|f files]; simpl;
    repeat (case_decide; simpl in * ); try reflexivity; try lia;
    repeat match goal with
           | H : length ?l = 0 |- _ => apply length_zero_iff_nil in H; rewrite ?H
           end; reflexivity.
Qed.

Lemma stats_events_setDefaults (g : pkgvars) (c : Conntrack) :
  stats_events (setDefaults g c) = stats_events c.
Proof.
  unfold stats_events.
  by rewrite setDefaults_ps, setDefaults_CollectStats, setDefaults_PerCPU.
Qed.

(** ** The statistics pass and the end of the cycle *)

Lemma range_stats_decompose (perCPU : bool) (stats : list ConntrackStat)
    (i : nat) (st : state) :
  range_stats perCPU i stats st =
  {| fields := fields st;
     trace := trace st ++
       imap (fun j sts =>
               EvAddCounter inputName (statFields sts) (cpuTags perCPU (i + j)))
            stats |}.
Proof.
  revert i st. induction stats as [|sts stats IH]; intros i st; simpl.
  - rewrite app_nil_r. by destruct st.
  - rewrite IH. simpl. rewrite <- app_assoc. simpl.
    rewrite Nat.add_0_r. do 3 f_equal.
    apply imap_ext. intros j x _. simpl. do 2 f_equal. lia.
Qed.

Lemma stats_pass_decompose (c : Conntrack) (st : state) :
  stats_pass c st =
  (fun evs => {| fields := fields st; trace := trace st ++ evs |})
    <$> stats_events c.
Proof.
  unfold stats_pass, stats_events.
  destruct (CollectStats c); simpl.
  2: { rewrite app_nil_r. by destruct st. }
  destruct (ps c) as [p|]; simpl; [|reflexivity].
  destruct (NetConntrack p (PerCPU c)) as [stats [e|]]; simpl;
    rewrite range_stats_decompose; simpl; by rewrite <- ?app_assoc.
Qed.

Section GatherShape.

Variable L : stdlib.
Variable g : pkgvars.
Variable fs : filesystem.

(** [Gather], cut at the end of its double loop. *)
Lemma Gather_decompose (c : Conntrack) :
  Gather L g fs c =
  let st := file_pass L g fs c in
  match stats_events c with
  | None => (setDefaults g c, trace st, Panic)
  | Some evs =>
      if decide (fields st = ∅)
      then (setDefaults g c, trace st ++ evs, Return (Some errNotLoaded))
      else (setDefaults g c,
            trace st ++ evs ++ [EvAddFields inputName (fields st) ∅],
            Return None)
  end.
Proof.
  unfold Gather, file_pass. simpl.
  rewrite stats_pass_decompose, stats_events_setDefaults.
  destruct (stats_events c) as [evs|]; simpl; [|reflexivity].
  unfold finish. simpl.
  destruct (decide (size _ = 0)) as [Hs|Hs];
    [apply map_size_empty_iff in Hs|rewrite map_size_empty_iff in Hs];
    case_decide; try done.
  by rewrite <- app_assoc.
Qed.

Lemma file_pass_visit_all (c : Conntrack) :
  file_pass L g fs c =
  visit_all L fs
    (candidates (Dirs (setDefaults g c)) (Files (setDefaults g c))) st_init.
Proof. unfold file_pass. simpl. apply dirs_loop_visit_all. Qed.

Lemma file_pass_events_file (c : Conntrack) :
  Forall file_event (trace (file_pass L g fs c)).
Proof.
  rewrite file_pass_visit_all, trace_visit_all. simpl.
  apply visit_all_events_file.
Qed.

End GatherShape.

Lemma omap_imap_None {A B : Type} (pr : event -> option B)
    (f : nat -> A -> event) (l : list A) :
  (forall i x, pr (f i x) = None) -> omap pr (imap f l) = [].
Proof.
  revert f. induction l as [|x l IH]; intros f Hf; simpl; [reflexivity|].
  rewrite Hf. apply IH. intros i y. apply Hf.
Qed.

Lemma omap_imap_Some {A B : Type} (pr : event -> option B)
    (f : nat -> A -> event) (h : nat -> A -> B) (l : list A) :
  (forall i x, pr (f i x) = Some (h i x)) -> omap pr (imap f l) = imap h l.
Proof.
  revert f h. induction l as [|x l IH]; intros f h Hf; simpl; [reflexivity|].
  rewrite Hf. f_equal. apply IH. intros i y. apply Hf.
Qed.

Lemma cpuTags_eq (perCPU : bool) (i : nat) :
  cpuTags perCPU i =
  {[ "cpu" := if perCPU then "cpu" +:+ pretty i else "all" ]}.
Proof. by destruct perCPU. Qed.

Section StatsEvents.

Variable c : Conntrack.
Variable p : PS.
Variable stats : list ConntrackStat.
Variable err : option string.
Hypothesis Hcollect : CollectStats c = true.
Hypothesis Hps : ps c = Some p.
Hypothesis Hcall : NetConntrack p (PerCPU c) = (stats, err).

Lemma stats_events_called :
  stats_events c =
  Some ([EvNetConntrack (PerCPU c)] ++
        match err with
        | Some e =>
            [EvAddError ("E! failed to retrieve conntrack statistics: " +:+ e)]
        | None => []
        end ++
        imap (fun i sts =>
                EvAddCounter inputName (statFields sts) (cpuTags (PerCPU c) i))
             stats).
Proof. unfold stats_events. by rewrite Hcollect, Hps, Hcall. Qed.

End StatsEvents.

Lemma stats_events_no_fields_record (c : Conntrack) (evs : list event) :
  stats_events c = Some evs -> fields_records_of evs = [].
Proof.
  unfold stats_events. destruct (CollectStats c).
  2: { by intros [= <-]. }
  destruct (ps c) as [p|]; [|discriminate]. intros [= <-].
  unfold fields_records_of. cbn [omap list_omap].
  rewrite omap_app, omap_imap_None by done.
  by destruct (NetConntrack p (PerCPU c)).2.
Qed.

Lemma stats_events_off (c : Conntrack) :
  CollectStats c = false -> stats_events c = Some [].
Proof. unfold stats_events. by intros ->. Qed.

(** With [collect_stats] set and a nil [ps], [Gather] does not return. *)
Lemma Gather_nil_ps_panics (L : stdlib) (g : pkgvars) (fs : filesystem)
    (c : Conntrack) :
  CollectStats c = true -> ps c = None -> result (Gather L g fs c) = Panic.
Proof.
  intros Hc Hp. rewrite Gather_decompose. simpl.
  unfold stats_events. by rewrite Hc, Hp.
Qed.

(** The events of a cycle that returns: those of the file pass, those of
    the statistics pass, and the fields record when there is one. *)
Lemma Gather_events_shape (L : stdlib) (g : pkgvars) (fs : filesystem)
    (c : Conntrack) (evs : list event) :
  stats_events c = Some evs ->
  events (Gather L g fs c) =
  trace (file_pass L g fs c) ++ evs ++
  (if decide (fields (file_pass L g fs c) = ∅) then []
   else [EvAddFields inputName (fields (file_pass L g fs c)) ∅]).
Proof.
  intros Hevs. rewrite Gather_decompose. simpl. rewrite Hevs.
  case_decide; unfold events; simpl; by rewrite ?app_nil_r.
Qed.

(** A collector whose provider is there when it is asked for statistics
    does not panic. *)
Lemma wired_stats_events (c : Conntrack) :
  (CollectStats c = true -> is_Some (ps c)) ->
  exists evs, stats_events c = Some evs.
Proof.
  intros Hwired. destruct (CollectStats c) eqn:Hc.
  - destruct (Hwired eq_refl) as [p Hp]. eexists.
    unfold stats_events. by rewrite Hc, Hp.
  - eexists. by apply stats_events_off.
Qed.

(** The result of a cycle that does not panic depends on the field set of
    the file pass only. *)
Lemma Gather_result (L : stdlib) (g : pkgvars) (fs : filesystem)
    (c : Conntrack) :
  (CollectStats c = true -> is_Some (ps c)) ->
  result (Gather L g fs c) =
  Return (if decide (fields (file_pass L g fs c) = ∅)
          then Some errNotLoaded else None).
Proof.
  intros Hwired. destruct (wired_stats_events c Hwired) as [evs Hevs].
  rewrite Gather_decompose. simpl. rewrite Hevs. by case_decide.
Qed.

(** The fields records of a cycle that does not panic: the field set, once,
    when it is not empty. *)
Lemma Gather_fields_records (L : stdlib) (g : pkgvars) (fs : filesystem)
    (c : Conntrack) :
  (CollectStats c = true -> is_Some (ps c)) ->
  fields_records_of (events (Gather L g fs c)) =
  if decide (fields (file_pass L g fs c) = ∅) then []
  else [(inputName, fields (file_pass L g fs c), ∅)].
Proof.
  intros Hwired. destruct (wired_stats_events c Hwired) as [evs Hevs].
  rewrite (Gather_events_shape L g fs c evs Hevs), !fields_records_of_app.
  rewrite (fields_records_of_file_events _ (file_pass_events_file L g fs c)).
  rewrite (stats_events_no_fields_record c evs Hevs).
  by case_decide.
Qed.

(** ** The claims *)

(** C3.  The metric key of a filename is ["ip_"] followed by what comes
    after its first underscore ([pre] is the part before it, so it holds no
    underscore); [nf_conntrack_count] and [ip_conntrack_count] get the same
    key [ip_conntrack_count]; a filename without underscore has no key and
    the loop body leaves the state as it found it: no field is written, no
    file-system call is made and no error is reported. *)
Theorem C3_metric_key (L : stdlib) (fs : filesystem)
    (pre suf dir file : string) (st : state) :
  has_underscore pre = false ->
  has_underscore file = false ->
  metricKey (pre +:+ "_" +:+ suf) = Some ("ip_" +:+ suf)
  /\ metricKey "nf_conntrack_count" = Some "ip_conntrack_count"
  /\ metricKey "ip_conntrack_count" = Some "ip_conntrack_count"
  /\ metricKey file = None
  /\ visit L fs dir file st = st.
Proof.
  intros Hpre Hfile. split; [exact (metricKey_split pre suf Hpre)|].
  split; [reflexivity|]. split; [reflexivity|].
  pose proof (metricKey_no_underscore file Hfile) as Hk.
  split; [exact Hk|exact (visit_skipped L fs dir file st Hk)].
Qed.

Lemma C3_metric_key_witness :
  has_underscore "nf" = false
  /\ has_underscore "baz.txt" = false
  /\ metricKey ("nf" +:+ "_" +:+ "conntrack_max") = Some ("ip_" +:+ "conntrack_max")
  /\ visit refLib (fs_of [("./foo/bar/baz.txt", Regular "1")])
       "./foo/bar" "baz.txt" st_init = st_init.
Proof.
  split; [reflexivity|]. split; [reflexivity|].
  pose proof (C3_metric_key refLib (fs_of [("./foo/bar/baz.txt", Regular "1")])
                "nf" "conntrack_max" "./foo/bar" "baz.txt" st_init
                eq_refl eq_refl) as H.
  split; [exact (proj1 H)|exact (proj2 (proj2 (proj2 (proj2 H))))].
Defined.

(** Every filename with an underscore is of the form the theorem above
    speaks of. *)
Lemma has_underscore_split (file : string) :
  has_underscore file = true ->
  exists pre suf,
    file = pre +:+ "_" +:+ suf /\ has_underscore pre = false.
Proof.
  induction file as [|a s IH]; [discriminate|]. cbn [has_underscore].
  destruct (Ascii.eqb a "_") eqn:Ha.
  - intros _. apply Ascii.eqb_eq in Ha as ->. by exists "", s.
  - intros Hs. destruct (IH Hs) as (pre & suf & -> & Hpre).
    exists (String a pre), suf. split; [reflexivity|].
    cbn [has_underscore]. by rewrite Ha.
Qed.

(** X22.  The end of a cycle that does not panic, that is, of a collector
    whose provider is there when it is asked for statistics: for every
    configuration and file system, [Gather] returns the "module not loaded"
    error and emits no fields record exactly when the field set left by the
    double loop is empty; when it is not empty, [Gather] emits exactly one
    fields record, which holds the field set and no tag, and returns nil. *)
Theorem cycle_ends_by_field_set (L : stdlib) (g : pkgvars) (fs : filesystem)
    (c : Conntrack) :
  (CollectStats c = true -> is_Some (ps c)) ->
  let st := file_pass L g fs c in
  let r := Gather L g fs c in
  ((result r = Return (Some errNotLoaded)
    /\ fields_records_of (events r) = []) <-> fields st = ∅)
  /\ (fields st ≠ ∅ ->
      fields_records_of (events r) = [(inputName, fields st, ∅)]
      /\ result r = Return None).
Proof.
  intros Hwired st r. subst st r.
  rewrite (Gather_result L g fs c Hwired).
  rewrite (Gather_fields_records L g fs c Hwired).
  destruct (decide (fields (file_pass L g fs c) = ∅)) as [He|Hne].
  - split; [by split|]. intros Hne. by destruct Hne.
  - split; [|by intros _].
    split; [intros [[=] _]|intros He; by destruct Hne].
Qed.

Lemma cycle_ends_by_field_set_witness :
  let c := configured (Some (ps_ok [sts_test])) ["/tmp/x"]
             ["ip_conntrack_count"] true false in
  let fs := fs_of [("/tmp/x/ip_conntrack_count", Regular "1234321")] in
  (CollectStats c = true -> is_Some (ps c))
  /\ (fields (file_pass refLib pkg_init fs c) ≠ ∅ ->
      fields_records_of (events (Gather refLib pkg_init fs c)) =
        [(inputName, fields (file_pass refLib pkg_init fs c), ∅)]
      /\ result (Gather refLib pkg_init fs c) = Return None).
Proof.
  intros c fs.
  assert (CollectStats c = true -> is_Some (ps c)) as H.
  { intros _. exists (ps_ok [sts_test]). reflexivity. }
  split; [exact H|].
  exact (proj2 (cycle_ends_by_field_set refLib pkg_init fs c H)).
Defined.

(** C2, on the code.  The collector [init] registers has no provider.  With
    [collect_stats = true] set on it and a counter file to read, the field
    set after the double loop is not empty, yet [Gather] emits no fields
    record and does not return nil: the call [c.ps.NetConntrack] panics on
    the nil [ps] before the end of the cycle is reached. *)
Theorem C2_registered_collector_panics :
  let fs := fs_of [("/proc/sys/net/netfilter/nf_conntrack_count", Regular "12")] in
  let c := registered_with_stats in
  let r := Gather refLib pkg_init fs c in
  ps c = ps init_factory
  /\ CollectStats c = true
  /\ fields (file_pass refLib pkg_init fs c) =
       {[ "ip_conntrack_count" := Float64 12 ]}
  /\ fields (file_pass refLib pkg_init fs c) <> ∅
  /\ fields_records_of (events r) = []
  /\ result r = Panic
  /\ result r <> Return None.
Proof.
  intros fs c r.
  assert (fields (file_pass refLib pkg_init fs c) =
          {[ "ip_conntrack_count" := Float64 12 ]}) as Hf.
  { vm_compute. reflexivity. }
  assert (result r = Panic) as Hr.
  { vm_compute. reflexivity. }
  split; [reflexivity|]. split; [reflexivity|]. split; [exact Hf|].
  split; [rewrite Hf; apply insert_non_empty|].
  split; [vm_compute; reflexivity|]. split; [exact Hr|].
  rewrite Hr. discriminate.
Qed.

(** C9.  A second cycle, run on the collector as the first cycle left it
    and against the same package variables, file system and provider, ends
    with the same collector, the same events in the same order (so the same
    field values, records, tags and reported errors) and the same result. *)
Theorem C9_second_cycle_identical (L : stdlib) (g : pkgvars) (fs : filesystem)
    (c : Conntrack) :
  Gather L g fs (collector_after (Gather L g fs c)) = Gather L g fs c.
Proof.
  assert (collector_after (Gather L g fs c) = setDefaults g c) as ->.
  { unfold collector_after, Gather.
    destruct (stats_pass _ _) as [st'|]; [|reflexivity].
    by destruct (finish st'). }
  unfold Gather. by rewrite setDefaults_idem.
Qed.

Lemma counters_of_stats_events (c : Conntrack) (p : PS) :
  CollectStats c = true ->
  ps c = Some p ->
  forall evs, stats_events c = Some evs ->
  counters_of evs =
  imap (fun i sts => (inputName, statFields sts, cpuTags (PerCPU c) i))
       (NetConntrack p (PerCPU c)).1.
Proof.
  intros Hc Hp evs.
  rewrite (stats_events_called c p _ _ Hc Hp (surjective_pairing _)).
  intros [= <-]. unfold counters_of. cbn [app omap list_omap].
  rewrite omap_app.
  rewrite (omap_imap_Some _ _
             (fun i sts => (inputName, statFields sts, cpuTags (PerCPU c) i)))
    by done.
  by destruct (NetConntrack p (PerCPU c)).2.
Qed.

(** The counter records of a cycle in which the provider was called. *)
Lemma Gather_counters (L : stdlib) (g : pkgvars) (fs : filesystem)
    (c : Conntrack) (p : PS) (stats : list ConntrackStat) (err : option string) :
  CollectStats c = true ->
  ps c = Some p ->
  NetConntrack p (PerCPU c) = (stats, err) ->
  counters_of (events (Gather L g fs c)) =
  imap (fun i sts => (inputName, statFields sts, cpuTags (PerCPU c) i)) stats.
Proof.
  intros Hc Hp Hcall.
  destruct (stats_events c) as [evs|] eqn:Hevs.
  2: { by rewrite (stats_events_called c p stats err Hc Hp Hcall) in Hevs. }
  rewrite (Gather_events_shape L g fs c evs Hevs), !counters_of_app.
  rewrite (counters_of_file_events _ (file_pass_events_file L g fs c)).
  rewrite (counters_of_stats_events c p Hc Hp evs Hevs), Hcall. simpl.
  case_decide; simpl; by rewrite app_nil_r.
Qed.

(** The provider is called once, with the [PerCPU] flag. *)
Lemma Gather_provider_calls (L : stdlib) (g : pkgvars) (fs : filesystem)
    (c : Conntrack) (p : PS) :
  CollectStats c = true ->
  ps c = Some p ->
  provider_calls_of (events (Gather L g fs c)) = [PerCPU c].
Proof.
  intros Hc Hp.
  pose proof (stats_events_called c p _ _ Hc Hp (surjective_pairing _)) as Hevs.
  rewrite (Gather_events_shape L g fs c _ Hevs), !provider_calls_of_app.
  rewrite (provider_calls_of_file_events _ (file_pass_events_file L g fs c)).
  unfold provider_calls_of at 3. rewrite omap_imap_None by done. simpl.
  destruct (NetConntrack p (PerCPU c)).2; case_decide; reflexivity.
Qed.

(** The field map of a counter record: seventeen entries, one per counter
    of the provider's entry. *)
Lemma statFields_schema (sts : ConntrackStat) :
  size (statFields sts) = 17
  /\ statFields sts !! "entries" = Some (Uint32 (Entries sts))
  /\ statFields sts !! "searched" = Some (Uint32 (Searched sts))
  /\ statFields sts !! "found" = Some (Uint32 (Found sts))
  /\ statFields sts !! "new" = Some (Uint32 (New sts))
  /\ statFields sts !! "invalid" = Some (Uint32 (Invalid sts))
  /\ statFields sts !! "ignore" = Some (Uint32 (Ignore sts))
  /\ statFields sts !! "delete" = Some (Uint32 (Delete sts))
  /\ statFields sts !! "delete_list" = Some (Uint32 (DeleteList sts))
  /\ statFields sts !! "insert" = Some (Uint32 (Insert sts))
  /\ statFields sts !! "insert_failed" = Some (Uint32 (InsertFailed sts))
  /\ statFields sts !! "drop" = Some (Uint32 (Drop sts))
  /\ statFields sts !! "early_drop" = Some (Uint32 (EarlyDrop sts))
  /\ statFields sts !! "icmp_error" = Some (Uint32 (IcmpError sts))
  /\ statFields sts !! "expect_new" = Some (Uint32 (ExpectNew sts))
  /\ statFields sts !! "expect_create" = Some (Uint32 (ExpectCreate sts))
  /\ statFields sts !! "expect_delete" = Some (Uint32 (ExpectDelete sts))
  /\ statFields sts !! "search_restart" = Some (Uint32 (SearchRestart sts)).
Proof. split; [vm_compute; reflexivity|]. repeat split. Qed.

(** C6.  When the provider is called and returns [stats], the cycle emits
    one counter record per entry, in the order of [stats]: record [i] is
    named [conntrack], is tagged [cpu=cpu<i>] when [PerCPU] is set and
    [cpu=all] when it is not, and its fields are the seventeen counters of
    entry [i], each as an unsigned integer, and nothing else. *)
Theorem C6_one_counter_record_per_entry (L : stdlib) (g : pkgvars)
    (fs : filesystem) (c : Conntrack) (p : PS)
    (stats : list ConntrackStat) (err : option string) :
  CollectStats c = true ->
  ps c = Some p ->
  NetConntrack p (PerCPU c) = (stats, err) ->
  let recs := counters_of (events (Gather L g fs c)) in
  length recs = length stats
  /\ recs =
     imap (fun i sts =>
             (inputName, statFields sts,
              {[ "cpu" := if PerCPU c then "cpu" +:+ pretty i else "all" ]}))
          stats
  /\ (forall i sts, stats !! i = Some sts ->
        recs !! i =
        Some (inputName, statFields sts,
              {[ "cpu" := if PerCPU c then "cpu" +:+ pretty i else "all" ]}))
  /\ (forall sts,
        size (statFields sts) = 17
        /\ statFields sts !! "entries" = Some (Uint32 (Entries sts))
        /\ statFields sts !! "searched" = Some (Uint32 (Searched sts))
        /\ statFields sts !! "found" = Some (Uint32 (Found sts))
        /\ statFields sts !! "new" = Some (Uint32 (New sts))
        /\ statFields sts !! "invalid" = Some (Uint32 (Invalid sts))
        /\ statFields sts !! "ignore" = Some (Uint32 (Ignore sts))
        /\ statFields sts !! "delete" = Some (Uint32 (Delete sts))
        /\ statFields sts !! "delete_list" = Some (Uint32 (DeleteList sts))
        /\ statFields sts !! "insert" = Some (Uint32 (Insert sts))
        /\ statFields sts !! "insert_failed" = Some (Uint32 (InsertFailed sts))
        /\ statFields sts !! "drop" = Some (Uint32 (Drop sts))
        /\ statFields sts !! "early_drop" = Some (Uint32 (EarlyDrop sts))
        /\ statFields sts !! "icmp_error" = Some (Uint32 (IcmpError sts))
        /\ statFields sts !! "expect_new" = Some (Uint32 (ExpectNew sts))
        /\ statFields sts !! "expect_create" = Some (Uint32 (ExpectCreate sts))
        /\ statFields sts !! "expect_delete" = Some (Uint32 (ExpectDelete sts))
        /\ statFields sts !! "search_restart" = Some (Uint32 (SearchRestart sts))).
Proof.
  intros Hc Hp Hcall recs.
  assert (recs =
          imap (fun i sts =>
                  (inputName, statFields sts,
                   {[ "cpu" := if PerCPU c then "cpu" +:+ pretty i else "all" ]}))
               stats) as Hrecs.
  { subst recs. rewrite (Gather_counters L g fs c p stats err Hc Hp Hcall).
    apply imap_ext. intros i sts _. by rewrite cpuTags_eq. }
  split; [by rewrite Hrecs, length_imap|].
  split; [exact Hrecs|].
  split; [|exact statFields_schema].
  intros i sts Hi. rewrite Hrecs, list_lookup_imap, Hi. reflexivity.
Qed.

Lemma C6_one_counter_record_per_entry_witness :
  let c := configured (Some (ps_ok [sts_test; sts_test])) [] [] true true in
  CollectStats c = true
  /\ ps c = Some (ps_ok [sts_test; sts_test])
  /\ NetConntrack (ps_ok [sts_test; sts_test]) (PerCPU c) =
       ([sts_test; sts_test], None)
  /\ counters_of (events (Gather refLib pkg_init (fs_of []) c)) =
       [(inputName, statFields sts_test, {[ "cpu" := "cpu" +:+ pretty 0 ]});
        (inputName, statFields sts_test, {[ "cpu" := "cpu" +:+ pretty 1 ]})].
Proof.
  intros c. split; [reflexivity|]. split; [reflexivity|]. split; [reflexivity|].
  exact (proj1 (proj2 (C6_one_counter_record_per_entry refLib pkg_init
                         (fs_of []) c (ps_ok [sts_test; sts_test])
                         [sts_test; sts_test] None eq_refl eq_refl eq_refl))).
Defined.

(** C10.  The statistics pass comes before the test of the field set: with
    [collect_stats] set and a file pass that collected nothing, the provider
    is called all the same, every entry it returns is emitted as a tagged
    counter record, no fields record is emitted, and [Gather] then returns
    the "module not loaded" error. *)
Theorem C10_stats_emitted_before_failure (L : stdlib) (g : pkgvars)
    (fs : filesystem) (c : Conntrack) (p : PS)
    (stats : list ConntrackStat) (err : option string) :
  CollectStats c = true ->
  ps c = Some p ->
  NetConntrack p (PerCPU c) = (stats, err) ->
  fields (file_pass L g fs c) = ∅ ->
  let r := Gather L g fs c in
  provider_calls_of (events r) = [PerCPU c]
  /\ counters_of (events r) =
     imap (fun i sts =>
             (inputName, statFields sts,
              {[ "cpu" := if PerCPU c then "cpu" +:+ pretty i else "all" ]}))
          stats
  /\ fields_records_of (events r) = []
  /\ result r = Return (Some errNotLoaded).
Proof.
  intros Hc Hp Hcall Hempty r. subst r.
  split; [exact (Gather_provider_calls L g fs c p Hc Hp)|].
  split.
  { rewrite (Gather_counters L g fs c p stats err Hc Hp Hcall).
    apply imap_ext. intros i sts _. by rewrite cpuTags_eq. }
  assert (CollectStats c = true -> is_Some (ps c)) as Hwired.
  { intros _. by exists p. }
  rewrite (Gather_fields_records L g fs c Hwired).
  rewrite (Gather_result L g fs c Hwired).
  destruct (decide (fields (file_pass L g fs c) = ∅)) as [_|Hne];
    [by split|by destruct Hne].
Qed.

Lemma C10_stats_emitted_before_failure_witness :
  let c := NewConntrack (Some (ps_ok [sts_test])) in
  let r := Gather refLib pkg_init (fs_of []) c in
  fields (file_pass refLib pkg_init (fs_of []) c) = ∅
  /\ provider_calls_of (events r) = [false]
  /\ counters_of (events r) =
       [(inputName, statFields sts_test, {[ "cpu" := "all" ]})]
  /\ result r = Return (Some errNotLoaded).
Proof.
  intros c r.
  assert (fields (file_pass refLib pkg_init (fs_of []) c) = ∅) as Hempty.
  { vm_compute. reflexivity. }
  split; [exact Hempty|].
  pose proof (C10_stats_emitted_before_failure refLib pkg_init (fs_of []) c
                (ps_ok [sts_test]) [sts_test] None
                eq_refl eq_refl eq_refl Hempty) as H.
  split; [exact (proj1 H)|].
  split; [exact (proj1 (proj2 H))|exact (proj2 (proj2 (proj2 H)))].
Defined.

(** What the statistics pass reports when the provider returns an error. *)
Lemma errors_of_stats_events (c : Conntrack) (p : PS) (evs : list event) :
  CollectStats c = true ->
  ps c = Some p ->
  stats_events c = Some evs ->
  errors_of evs =
  match (NetConntrack p (PerCPU c)).2 with
  | Some e => ["E! failed to retrieve conntrack statistics: " +:+ e]
  | None => []
  end.
Proof.
  intros Hc Hp.
  rewrite (stats_events_called c p _ _ Hc Hp (surjective_pairing _)).
  intros [= <-]. unfold errors_of. cbn [omap list_omap].
  rewrite omap_app, omap_imap_None by done.
  by destruct (NetConntrack p (PerCPU c)).2.
Qed.

(** A provider error in general: the error is reported after those of
    the file pass, one counter record is emitted per entry that came with
    it, and the result is decided by the field set. *)
Lemma Gather_provider_error (L : stdlib) (g : pkgvars)
    (fs : filesystem) (c : Conntrack) (p : PS)
    (stats : list ConntrackStat) (e : string) :
  CollectStats c = true ->
  ps c = Some p ->
  NetConntrack p (PerCPU c) = (stats, Some e) ->
  errors_of (events (Gather L g fs c)) =
    errors_of (trace (file_pass L g fs c)) ++
    ["E! failed to retrieve conntrack statistics: " +:+ e]
  /\ length (counters_of (events (Gather L g fs c))) = length stats
  /\ result (Gather L g fs c) =
     Return (if decide (fields (file_pass L g fs c) = ∅)
             then Some errNotLoaded else None).
Proof.
  intros Hc Hp Hcall.
  assert (CollectStats c = true -> is_Some (ps c)) as Hwired.
  { intros _. by exists p. }
  pose proof (Gather_counters L g fs c p stats (Some e) Hc Hp Hcall) as Hcnt.
  split; [|split].
  - destruct (stats_events c) as [evs|] eqn:Hevs.
    2: { by rewrite (stats_events_called c p _ _ Hc Hp Hcall) in Hevs. }
    rewrite (Gather_events_shape L g fs c evs Hevs), !errors_of_app.
    rewrite (errors_of_stats_events c p evs Hc Hp Hevs), Hcall. simpl.
    case_decide; reflexivity.
  - by rewrite Hcnt, length_imap.
  - exact (Gather_result L g fs c Hwired).
Qed.

(** C7.  When [collect_stats] is set and the provider, which returns a
    sequence or an error, returns an error, [Gather] reports it as a
    non-fatal error, after those of the file pass, and emits no counter
    record; the cycle then fails exactly when the field set of the file
    pass is empty: the failure of the provider does not abort it. *)
Theorem C7_provider_error_non_fatal (L : stdlib) (g : pkgvars)
    (fs : filesystem) (c : Conntrack) (p : PS)
    (stats : list ConntrackStat) (e : string) :
  CollectStats c = true ->
  ps c = Some p ->
  provider_contract p ->
  NetConntrack p (PerCPU c) = (stats, Some e) ->
  let r := Gather L g fs c in
  let st := file_pass L g fs c in
  errors_of (events r) =
    errors_of (trace st) ++ ["E! failed to retrieve conntrack statistics: " +:+ e]
  /\ counters_of (events r) = []
  /\ result r =
     Return (if decide (fields st = ∅) then Some errNotLoaded else None).
Proof.
  intros Hc Hp Hcontract Hcall r st. subst r st.
  destruct (Gather_provider_error L g fs c p stats e Hc Hp Hcall)
    as (Herr & Hlen & Hres).
  split; [exact Herr|]. split; [|exact Hres].
  rewrite (Hcontract _ _ _ Hcall) in Hlen.
  by apply length_zero_iff_nil.
Qed.

Lemma C7_provider_error_non_fatal_witness :
  let c := NewConntrack (Some ps_failing) in
  let r := Gather refLib pkg_init (fs_of []) c in
  provider_contract ps_failing
  /\ errors_of (events r) =
    ["E! failed to retrieve conntrack statistics: " +:+
     "open /proc/net/stat/nf_conntrack: no such file or directory"]
  /\ counters_of (events r) = []
  /\ result r = Return (Some errNotLoaded).
Proof.
  intros c r.
  assert (provider_contract ps_failing) as Hcontract.
  { intros perCPU stats e [= <- _]. reflexivity. }
  split; [exact Hcontract|].
  exact (C7_provider_error_non_fatal refLib pkg_init (fs_of []) c
           ps_failing []
           "open /proc/net/stat/nf_conntrack: no such file or directory"
           eq_refl eq_refl Hcontract eq_refl).
Defined.

(** What [NewConntrack] builds: [CollectStats] set and [PerCPU] not set, so
    that a cycle calls the provider once, for the aggregate, and tags every
    record [cpu=all]. *)
Lemma NewConntrack_defaults (L : stdlib) (g : pkgvars) (fs : filesystem)
    (p : PS) :
  CollectStats (NewConntrack (Some p)) = true
  /\ PerCPU (NewConntrack (Some p)) = false
  /\ provider_calls_of (events (Gather L g fs (NewConntrack (Some p)))) = [false]
  /\ counters_of (events (Gather L g fs (NewConntrack (Some p)))) =
     map (fun sts => (inputName, statFields sts, {[ "cpu" := "all" ]}))
         (NetConntrack p false).1.
Proof.
  split; [reflexivity|]. split; [reflexivity|]. split.
  - exact (Gather_provider_calls L g fs (NewConntrack (Some p)) p
             eq_refl eq_refl).
  - rewrite (Gather_counters L g fs (NewConntrack (Some p)) p _ _
               eq_refl eq_refl (surjective_pairing _)).
    simpl. generalize (NetConntrack p false).1. intros l.
    change (imap (fun _ sts => (inputName, statFields sts,
                                ({[ "cpu" := "all" ]} : gmap string string))) l
            = map (fun sts => (inputName, statFields sts, {[ "cpu" := "all" ]})) l).
    apply imap_const.
Qed.

(** C5, on the collector the plugin registry gets.  [init] registers
    [&Conntrack{}] and not [NewConntrack]: with no option set,
    [CollectStats] is false, and a cycle neither calls the provider nor
    emits a counter record. *)
Theorem C5_registered_collector_stats_off (L : stdlib) (g : pkgvars)
    (fs : filesystem) :
  CollectStats init_factory = false
  /\ PerCPU init_factory = false
  /\ ps init_factory = None
  /\ provider_calls_of (events (Gather L g fs init_factory)) = []
  /\ counters_of (events (Gather L g fs init_factory)) = [].
Proof.
  split; [reflexivity|]. split; [reflexivity|]. split; [reflexivity|].
  rewrite (Gather_events_shape L g fs init_factory []
             (stats_events_off init_factory eq_refl)).
  rewrite !provider_calls_of_app, !counters_of_app.
  rewrite (provider_calls_of_file_events _
             (file_pass_events_file L g fs init_factory)).
  rewrite (counters_of_file_events _
             (file_pass_events_file L g fs init_factory)).
  case_decide; split; reflexivity.
Qed.

(** ** Files that cannot be read, files that do not parse *)

Section FilePass.

Variable L : stdlib.
Variable fs : filesystem.

Lemma elem_of_candidates (dirs files : list string) (dir file : string) :
  (dir, file) ∈ candidates dirs files <-> dir ∈ dirs /\ file ∈ files.
Proof.
  unfold candidates. rewrite !list_elem_of_In, in_flat_map. split.
  - intros (d & Hd & Hf). apply in_map_iff in Hf as (f & [= <- <-] & Hf).
    by split.
  - intros [Hd Hf]. exists dir. split; [done|].
    apply in_map_iff. by exists file.
Qed.

Lemma field_update_unreadable (dir file e : string) (m : gmap string iface) :
  fs (Join L dir file) = Unreadable e -> field_update L fs dir file m = m.
Proof.
  intros Hs. unfold field_update. rewrite Hs. by destruct (metricKey file).
Qed.

(** Candidates that leave the map alone can be dropped from the loop. *)
Lemma fold_field_update_filter (x : string * string)
    (cands : list (string * string)) (m : gmap string iface) :
  (forall m', field_update L fs x.1 x.2 m' = m') ->
  fold_left (fun m c => field_update L fs c.1 c.2 m) cands m =
  fold_left (fun m c => field_update L fs c.1 c.2 m)
    (filter (fun cand => cand ≠ x) cands) m.
Proof.
  intros Hx. revert m. induction cands as [|y cands IH]; intros m; [done|].
  rewrite filter_cons. simpl. case_decide as Hy; simpl.
  - apply IH.
  - rewrite Hy, Hx. apply IH.
Qed.

Lemma visit_all_reports_unreadable (cands : list (string * string))
    (dir file key e : string) (st : state) :
  (dir, file) ∈ cands ->
  metricKey file = Some key ->
  fs (Join L dir file) = Unreadable e ->
  ("E! failed to read file '" +:+ Join L dir file +:+ "': " +:+ e)
    ∈ errors_of (trace (visit_all L fs cands st)).
Proof.
  intros Hin Hk Hs.
  apply list_elem_of_split in Hin as (l1 & l2 & ->).
  rewrite trace_visit_all, flat_map_app. simpl.
  rewrite !errors_of_app. unfold visit_events at 2.
  rewrite (visit_unreadable L fs dir file key e st_init Hk Hs). simpl.
  rewrite !elem_of_app. right. right. apply list_elem_of_here.
Qed.

(** A key has the value of the last candidate, in the order of the loop,
    that has this key and can be read: what [ParseFloat] returned for it,
    error or not. *)
Lemma fold_field_update_last (l1 l2 : list (string * string))
    (dir file key s : string) (m : gmap string iface) :
  metricKey file = Some key ->
  fs (Join L dir file) = Regular s ->
  (forall d f s', (d, f) ∈ l2 -> metricKey f = Some key ->
                  fs (Join L d f) <> Regular s') ->
  fold_left (fun m c => field_update L fs c.1 c.2 m)
    (l1 ++ (dir, file) :: l2) m !! key =
  Some (Float64 (ParseFloat L (TrimSpace L s)).1).
Proof.
  intros Hk Hs Hlater. rewrite fold_left_app. simpl.
  set (m1 := field_update L fs dir file _).
  assert (m1 !! key = Some (Float64 (ParseFloat L (TrimSpace L s)).1)) as Hm1.
  { subst m1. unfold field_update. rewrite Hk, Hs. apply lookup_insert_eq. }
  clearbody m1. revert m1 Hm1.
  induction l2 as [|[d f] l2 IH]; intros m1 Hm1; [exact Hm1|].
  simpl. apply IH.
  - intros d' f' s' Hin. apply Hlater. by apply list_elem_of_further.
  - unfold field_update.
    destruct (metricKey f) as [k|] eqn:Hkf; [|exact Hm1].
    destruct (fs (Join L d f)) as [| |s'] eqn:Hsf; try exact Hm1.
    destruct (decide (k = key)) as [->|Hne].
    + exfalso. apply (Hlater d f s'); [apply list_elem_of_here|done..].
    + by rewrite lookup_insert_ne.
Qed.

End FilePass.

Lemma file_pass_last_readable_wins (L : stdlib) (g : pkgvars) (fs : filesystem)
    (c : Conntrack) (l1 l2 : list (string * string)) (dir file key s : string) :
  candidates (Dirs (setDefaults g c)) (Files (setDefaults g c)) =
    l1 ++ (dir, file) :: l2 ->
  metricKey file = Some key ->
  fs (Join L dir file) = Regular s ->
  (forall d f s', (d, f) ∈ l2 -> metricKey f = Some key ->
                  fs (Join L d f) <> Regular s') ->
  fields (file_pass L g fs c) !! key =
  Some (Float64 (ParseFloat L (TrimSpace L s)).1).
Proof.
  intros Hc Hk Hs Hlater.
  rewrite file_pass_visit_all, fields_visit_all, Hc.
  by apply fold_field_update_last.
Qed.

Lemma Gather_events_prefix (L : stdlib) (g : pkgvars) (fs : filesystem)
    (c : Conntrack) :
  exists rest,
    events (Gather L g fs c) = trace (file_pass L g fs c) ++ rest.
Proof.
  rewrite Gather_decompose. simpl.
  destruct (stats_events c) as [evs|]; [case_decide|]; unfold events; simpl.
  - by eexists.
  - by eexists.
  - exists []. by rewrite app_nil_r.
Qed.

(** C8, as the code has it.  When a candidate whose name contains an
    underscore exists and cannot be read, [Gather] reports the read error
    for its path and goes on: the field set of the cycle is the one the loop
    collects from the other (directory, file) candidates. *)
Theorem C8_unreadable_file_skipped (L : stdlib) (g : pkgvars) (fs : filesystem)
    (c : Conntrack) (dir file e : string) :
  dir ∈ Dirs (setDefaults g c) ->
  file ∈ Files (setDefaults g c) ->
  has_underscore file = true ->
  fs (Join L dir file) = Unreadable e ->
  let others :=
    filter (fun cand => cand ≠ (dir, file))
      (candidates (Dirs (setDefaults g c)) (Files (setDefaults g c))) in
  ("E! failed to read file '" +:+ Join L dir file +:+ "': " +:+ e)
    ∈ errors_of (events (Gather L g fs c))
  /\ fields (file_pass L g fs c) = fields (visit_all L fs others st_init).
Proof.
  intros Hd Hf Hu Hs others. subst others. split.
  - destruct (proj2 (metricKey_Some_iff file) Hu) as [key Hk].
    destruct (Gather_events_prefix L g fs c) as [rest ->].
    rewrite errors_of_app, elem_of_app. left.
    rewrite file_pass_visit_all.
    apply (visit_all_reports_unreadable L fs _ dir file key e st_init);
      [|done..].
    by apply elem_of_candidates.
  - rewrite file_pass_visit_all, !fields_visit_all.
    apply (fold_field_update_filter L fs (dir, file)).
    intros m'. by apply (field_update_unreadable L fs dir file e).
Qed.

Lemma C8_unreadable_file_skipped_witness :
  let fs := fs_of [("/d/ip_conntrack_max", Unreadable "permission denied");
                   ("/d/ip_conntrack_count", Regular "5")] in
  let c := configured None ["/d"] ["ip_conntrack_max"; "ip_conntrack_count"]
             false false in
  has_underscore "ip_conntrack_max" = true
  /\ fs (Join refLib "/d" "ip_conntrack_max") = Unreadable "permission denied"
  /\ ("E! failed to read file '" +:+ Join refLib "/d" "ip_conntrack_max" +:+
      "': " +:+ "permission denied")
       ∈ errors_of (events (Gather refLib pkg_init fs c))
  /\ fields (file_pass refLib pkg_init fs c) =
     fields (visit_all refLib fs [("/d", "ip_conntrack_count")] st_init).
Proof.
  intros fs c. split; [reflexivity|]. split; [reflexivity|].
  exact (C8_unreadable_file_skipped refLib pkg_init fs c
           "/d" "ip_conntrack_max" "permission denied"
           (list_elem_of_here _ _)
           (list_elem_of_here _ _)
           eq_refl eq_refl).
Defined.

(** C8 as it is written fails on a candidate without underscore: the loop
    skips it before any file-system call, so no error is reported for it. *)
Lemma C8_counterexample :
  let fs := fs_of [("/d/baz", Unreadable "permission denied");
                   ("/d/ip_conntrack_count", Regular "5")] in
  let c := configured None ["/d"] ["baz"; "ip_conntrack_count"] false false in
  (("/d", "baz") ∈ candidates (Dirs (setDefaults pkg_init c))
                              (Files (setDefaults pkg_init c)))
  /\ fs (Join refLib "/d" "baz") = Unreadable "permission denied"
  /\ errors_of (events (Gather refLib pkg_init fs c)) = [].
Proof.
  intros fs c. split; [apply list_elem_of_here|].
  split; [reflexivity|]. vm_compute. reflexivity.
Qed.

(** C1, on the code.  The directory [/tmp/x] holds [ip_conntrack_count]
    with the contents [abc].  The file exists, is read, and does not parse;
    the error is reported, and the value [ParseFloat] returned with its
    error, zero, is in the field set under [ip_conntrack_count]: the cycle
    emits it and succeeds. *)
Theorem C1_parse_failure_writes_field :
  let fs := fs_of [("/tmp/x/ip_conntrack_count", Regular "abc")] in
  let c := configured None ["/tmp/x"] ["ip_conntrack_count"] false false in
  metricKey "ip_conntrack_count" = Some "ip_conntrack_count"
  /\ fs (Join refLib "/tmp/x" "ip_conntrack_count") = Regular "abc"
  /\ ParseFloat refLib (TrimSpace refLib "abc") = (0%float, Some (errSyntax "abc"))
  /\ fields (file_pass refLib pkg_init fs c) =
       {[ "ip_conntrack_count" := Float64 0 ]}
  /\ Gather refLib pkg_init fs c =
       (c,
        [EvStat "/tmp/x/ip_conntrack_count";
         EvReadFile "/tmp/x/ip_conntrack_count";
         EvAddError
           ("E! failed to parse metric, expected number but  found 'abc': " +:+
            errSyntax "abc");
         EvAddFields inputName {[ "ip_conntrack_count" := Float64 0 ]} ∅],
        Return None).
Proof.
  intros fs c. repeat split; vm_compute; reflexivity.
Qed.

(** C4, on the code.  [/a] and [/b] hold a readable, parseable
    [ip_conntrack_count] (5 and 7), and [/c], the last directory, holds one
    that does not parse.  The last directory with a parseable file is [/b],
    yet the field is not 7: the zero written for [/c] replaced it. *)
Theorem C4_unparseable_file_overwrites :
  let fs := fs_of [("/a/ip_conntrack_count", Regular "5");
                   ("/b/ip_conntrack_count", Regular "7");
                   ("/c/ip_conntrack_count", Regular "abc")] in
  let c := configured None ["/a"; "/b"; "/c"] ["ip_conntrack_count"]
             false false in
  ParseFloat refLib (TrimSpace refLib "5") = (5%float, None)
  /\ ParseFloat refLib (TrimSpace refLib "7") = (7%float, None)
  /\ (ParseFloat refLib (TrimSpace refLib "abc")).2 = Some (errSyntax "abc")
  /\ fields (file_pass refLib pkg_init fs c) !! "ip_conntrack_count" =
       Some (Float64 0)
  /\ fields (file_pass refLib pkg_init fs c) !! "ip_conntrack_count" <>
       Some (Float64 7).
Proof.
  intros fs c.
  assert (fields (file_pass refLib pkg_init fs c) !! "ip_conntrack_count" =
          Some (Float64 0)) as H.
  { vm_compute. reflexivity. }
  repeat split; try (vm_compute; reflexivity); try exact H.
  rewrite H. intros Heq.
  pose (is7 := fun o : option iface =>
                 match o with
                 | Some (Float64 x) => PrimFloat.eqb x 7
                 | _ => false
                 end).
  assert (is7 (Some (Float64 0)) = is7 (Some (Float64 7))) as Hb.
  { by rewrite Heq. }
  vm_compute in Hb. discriminate.
Qed.

(** ** The tests of the package *)

(** [TestNoFilesFound]: nothing to read, the cycle fails. *)
Example TestNoFilesFound :
  result (Gather refLib {| dfltDirs := ["./foo/bar"]; dfltFiles := ["baz.txt"] |}
            (fs_of []) init_factory) =
  Return (Some errNotLoaded).
Proof. reflexivity. Qed.

(** [TestConfigsUsed]: the [nf_] files are reported under [ip_] keys. *)
Example TestConfigsUsed :
  fields_records_of
    (events (Gather refLib
               {| dfltDirs := ["/tmp/tmp1"];
                  dfltFiles := ["nf_conntrack_count"; "nf_conntrack_max"] |}
               (fs_of [("/tmp/tmp1/nf_conntrack_count", Regular "1234321");
                       ("/tmp/tmp1/nf_conntrack_max", Regular "9999999")])
               init_factory)) =
  [(inputName,
    {[ "ip_conntrack_count" := Float64 1234321;
       "ip_conntrack_max" := Float64 9999999 ]},
    ∅)].
Proof. vm_compute. reflexivity. Qed.

(** [TestCollectStats]: one aggregate entry, tagged [cpu=all].  The test
    requires no error from [Gather], so its file system has a counter file. *)
Example TestCollectStats :
  let r := Gather refLib pkg_init
             (fs_of [("/proc/sys/net/netfilter/nf_conntrack_count", Regular "12")])
             (NewConntrack (Some (ps_ok [sts_test]))) in
  result r = Return None
  /\ counters_of (events r) =
     [(inputName, statFields sts_test, {[ "cpu" := "all" ]})]
  /\ statFields sts_test !! "entries" = Some (Uint32 1234)
  /\ statFields sts_test !! "search_restart" = Some (Uint32 31).
Proof. repeat split; vm_compute; reflexivity. Qed.

(** * Further properties of the cycle *)

(** ** The field set as a function of the candidates *)

Section FieldSet.

Variable L : stdlib.
Variable fs : filesystem.

Lemma field_update_union (dir file : string) (m : gmap string iface) :
  field_update L fs dir file m = field_update L fs dir file ∅ ∪ m.
Proof.
  unfold field_update.
  destruct (metricKey file) as [key|]; [|by rewrite (left_id_L ∅ (∪))].
  destruct (fs (Join L dir file)); try by rewrite (left_id_L ∅ (∪)).
  by rewrite insert_union_singleton_l, insert_empty.
Qed.

(** The loop adds to the map it starts from and overwrites what it
    collects: it never removes a key. *)
Lemma fold_field_update_union (cands : list (string * string))
    (m : gmap string iface) :
  fold_left (fun m c => field_update L fs c.1 c.2 m) cands m = fold_left (fun m c => field_update L fs c.1 c.2 m) cands ∅ ∪ m.
Proof.
  revert m. induction cands as [|[d f] cands IH]; intros m; simpl.
  - by rewrite (left_id_L ∅ (∪)).
  - rewrite (IH (field_update L fs d f m)), (IH (field_update L fs d f ∅)).
    rewrite (field_update_union d f m). by rewrite (assoc_L (∪)).
Qed.

Lemma field_update_keeps (dir file key : string) (m : gmap string iface) :
  is_Some (m !! key) -> is_Some (field_update L fs dir file m !! key).
Proof.
  intros Hm. unfold field_update.
  destruct (metricKey file) as [k|]; [|done].
  destruct (fs (Join L dir file)); try done.
  destruct (decide (k = key)) as [->|Hne].
  - rewrite lookup_insert_eq. by eexists.
  - by rewrite lookup_insert_ne.
Qed.

Lemma fold_field_update_keeps (cands : list (string * string)) (key : string)
    (m : gmap string iface) :
  is_Some (m !! key) -> is_Some (fold_left (fun m c => field_update L fs c.1 c.2 m) cands m !! key).
Proof.
  revert m. induction cands as [|[d f] cands IH]; intros m Hm; [done|].
  simpl. apply IH. by apply field_update_keeps.
Qed.

(** Every entry of the map was there before the loop or was read from a
    candidate file. *)
Lemma fold_field_update_origin (cands : list (string * string))
    (m : gmap string iface) (key : string) (v : iface) :
  fold_left (fun m c => field_update L fs c.1 c.2 m) cands m !! key = Some v ->
  m !! key = Some v
  \/ exists dir file s,
       (dir, file) ∈ cands /\ metricKey file = Some key
       /\ fs (Join L dir file) = Regular s
       /\ v = Float64 (ParseFloat L (TrimSpace L s)).1.
Proof.
  revert m. induction cands as [|[d f] cands IH]; intros m; simpl; [by left|].
  intros Hv. destruct (IH _ Hv) as [Hm|(dir & file & s & Hin & Hrest)].
  2: { right. exists dir, file, s. split; [by apply list_elem_of_further|done]. }
  unfold field_update in Hm.
  destruct (metricKey f) as [k|] eqn:Hk; [|by left].
  destruct (fs (Join L d f)) as [| |s] eqn:Hs; try by left.
  destruct (decide (k = key)) as [->|Hne].
  - rewrite lookup_insert_eq in Hm. injection Hm as <-.
    right. exists d, f, s. split; [apply list_elem_of_here|done].
  - rewrite lookup_insert_ne in Hm by done. by left.
Qed.

(** A candidate that is read puts its key in the map, for good. *)
Lemma fold_field_update_readable (cands : list (string * string))
    (dir file key s : string) (m : gmap string iface) :
  (dir, file) ∈ cands ->
  metricKey file = Some key ->
  fs (Join L dir file) = Regular s ->
  is_Some (fold_left (fun m c => field_update L fs c.1 c.2 m) cands m !! key).
Proof.
  intros Hin Hk Hs. apply list_elem_of_split in Hin as (l1 & l2 & ->).
  rewrite fold_left_app. simpl. apply fold_field_update_keeps.
  unfold field_update. rewrite Hk, Hs, lookup_insert_eq. by eexists.
Qed.

(** Candidates that are absent leave the map alone. *)
Lemma fold_field_update_absent (cands : list (string * string))
    (m : gmap string iface) :
  (forall dir file, (dir, file) ∈ cands -> fs (Join L dir file) = Absent) ->
  fold_left (fun m c => field_update L fs c.1 c.2 m) cands m = m.
Proof.
  revert m. induction cands as [|[d f] cands IH]; intros m Habs; [done|].
  simpl. rewrite IH.
  - unfold field_update. rewrite (Habs d f (list_elem_of_here _ _)).
    by destruct (metricKey f).
  - intros dir file Hin. apply Habs. by apply list_elem_of_further.
Qed.

End FieldSet.

(** ** The file-system calls and the errors of the file pass *)

Section FileTrace.

Variable L : stdlib.
Variable fs : filesystem.

Lemma not_keyed (dir file : string) :
  ~ keyed (dir, file) -> metricKey file = None.
Proof.
  unfold keyed. simpl. destruct (metricKey file); [|done].
  intros []. by eexists.
Qed.

Lemma stats_of_visit_events (dir file : string) :
  stats_of (visit_events L fs dir file) =
  if decide (keyed (dir, file)) then [Join L dir file] else [].
Proof.
  unfold visit_events, visit, os_Stat, ioutil_ReadFile.
  destruct (decide (keyed (dir, file))) as [[key Hk]|Hn].
  - simpl in Hk. rewrite Hk. simpl.
    destruct (fs (Join L dir file)) as [|e|s]; simpl; try reflexivity.
    by destruct (ParseFloat L (TrimSpace L s)) as [x [e|]].
  - by rewrite (not_keyed dir file Hn).
Qed.

Lemma reads_of_visit_events (dir file : string) :
  reads_of (visit_events L fs dir file) =
  if decide (keyed (dir, file) /\ fs (Join L dir file) <> Absent)
  then [Join L dir file] else [].
Proof.
  unfold visit_events, visit, os_Stat, ioutil_ReadFile.
  destruct (decide (keyed (dir, file) /\ fs (Join L dir file) <> Absent))
    as [[[key Hk] Hs]|Hn].
  - simpl in Hk. rewrite Hk. simpl.
    destruct (fs (Join L dir file)) as [|e|s]; simpl; try done.
    by destruct (ParseFloat L (TrimSpace L s)) as [x [e|]].
  - destruct (metricKey file) as [key|] eqn:Hk; [|done]. simpl.
    destruct (fs (Join L dir file)) as [|e|s] eqn:Hs; [done|exfalso..];
      apply Hn; (split; [by exists key|done]).
Qed.

(** A candidate that is skipped, absent, or read and parsed reports
    nothing. *)
Lemma errors_of_visit_events_clean (dir file : string) :
  (forall key, metricKey file = Some key ->
     fs (Join L dir file) = Absent
     \/ exists s x, fs (Join L dir file) = Regular s
                    /\ ParseFloat L (TrimSpace L s) = (x, None)) ->
  errors_of (visit_events L fs dir file) = [].
Proof.
  intros Hclean.
  unfold visit_events, visit, os_Stat, ioutil_ReadFile. simpl.
  destruct (metricKey file) as [key|]; simpl; [|done].
  destruct (Hclean key eq_refl) as [->|(s & x & -> & Hp)]; simpl; [done|].
  by rewrite Hp.
Qed.

Lemma stats_of_candidates (cands : list (string * string)) :
  stats_of (flat_map (fun c => visit_events L fs c.1 c.2) cands) =
  (fun c => Join L c.1 c.2) <$> filter keyed cands.
Proof.
  induction cands as [|[d f] cands IH]; [done|]. simpl.
  unfold stats_of in *. rewrite omap_app, IH.
  fold (stats_of (visit_events L fs d f)). rewrite stats_of_visit_events.
  rewrite filter_cons. by repeat case_decide.
Qed.

Lemma reads_of_candidates (cands : list (string * string)) :
  reads_of (flat_map (fun c => visit_events L fs c.1 c.2) cands) =
  (fun c => Join L c.1 c.2)
    <$> filter (fun c => keyed c /\ fs (Join L c.1 c.2) <> Absent) cands.
Proof.
  induction cands as [|[d f] cands IH]; [done|]. simpl.
  unfold reads_of in *. rewrite omap_app, IH.
  fold (reads_of (visit_events L fs d f)). rewrite reads_of_visit_events.
  rewrite filter_cons. simpl. by repeat case_decide.
Qed.

Lemma errors_of_candidates_clean (cands : list (string * string)) :
  (forall dir file key, (dir, file) ∈ cands -> metricKey file = Some key ->
     fs (Join L dir file) = Absent
     \/ exists s x, fs (Join L dir file) = Regular s
                    /\ ParseFloat L (TrimSpace L s) = (x, None)) ->
  errors_of (flat_map (fun c => visit_events L fs c.1 c.2) cands) = [].
Proof.
  induction cands as [|[d f] cands IH]; intros Hclean; [done|]. simpl.
  rewrite errors_of_app, IH.
  - rewrite errors_of_visit_events_clean; [done|].
    intros key. apply Hclean, list_elem_of_here.
  - intros dir file key Hin. apply Hclean. by apply list_elem_of_further.
Qed.

End FileTrace.

(** What [Gather] adds to the file pass holds no file-system call. *)
Lemma Gather_events_rest (L : stdlib) (g : pkgvars) (fs : filesystem)
    (c : Conntrack) :
  exists rest,
    events (Gather L g fs c) = trace (file_pass L g fs c) ++ rest
    /\ Forall sink_event rest.
Proof.
  rewrite Gather_decompose. simpl. unfold stats_events, events.
  destruct (CollectStats c); [destruct (ps c) as [p|]|]; simpl.
  - assert (Forall sink_event
              (match (NetConntrack p (PerCPU c)).2 with
               | Some e =>
                   [EvAddError
                      ("E! failed to retrieve conntrack statistics: " +:+ e)]
               | None => []
               end ++
               imap (fun i sts =>
                       EvAddCounter inputName (statFields sts)
                         (cpuTags (PerCPU c) i))
                    (NetConntrack p (PerCPU c)).1)) as Hstats.
    { apply Forall_app. split.
      - destruct (NetConntrack p (PerCPU c)).2; by repeat constructor.
      - generalize (NetConntrack p (PerCPU c)).1.
        intros l. apply Forall_forall. intros e He.
        apply list_elem_of_lookup in He as [i Hi].
        rewrite list_lookup_imap in Hi.
        by destruct (l !! i); simplify_eq/=. }
    case_decide; simpl; eexists; (split; [reflexivity|]).
    + by constructor.
    + constructor; [done|]. apply Forall_app. split; [|by repeat constructor].
      exact Hstats.
  - exists []. by rewrite app_nil_r.
  - case_decide; simpl; eexists; (split; [reflexivity|]);
      by repeat constructor.
Qed.

Lemma omap_sink_events {B : Type} (pr : event -> option B) (tr : list event) :
  (forall e, sink_event e -> pr e = None) ->
  Forall sink_event tr -> omap pr tr = [].
Proof.
  intros Hpr. induction 1 as [|e tr He _ IH]; [reflexivity|].
  simpl. rewrite (Hpr e He). exact IH.
Qed.

Lemma Gather_stats_of (L : stdlib) (g : pkgvars) (fs : filesystem)
    (c : Conntrack) :
  stats_of (events (Gather L g fs c)) = stats_of (trace (file_pass L g fs c)).
Proof.
  destruct (Gather_events_rest L g fs c) as (rest & -> & Hrest).
  unfold stats_of. rewrite omap_app, (omap_sink_events _ rest), app_nil_r;
    [done| |done].
  by intros [].
Qed.

Lemma Gather_reads_of (L : stdlib) (g : pkgvars) (fs : filesystem)
    (c : Conntrack) :
  reads_of (events (Gather L g fs c)) = reads_of (trace (file_pass L g fs c)).
Proof.
  destruct (Gather_events_rest L g fs c) as (rest & -> & Hrest).
  unfold reads_of. rewrite omap_app, (omap_sink_events _ rest), app_nil_r;
    [done| |done].
  by intros [].
Qed.

(** With the statistics pass off, the errors of a cycle are those of its
    file pass. *)
Lemma Gather_errors_stats_off (L : stdlib) (g : pkgvars) (fs : filesystem)
    (c : Conntrack) :
  CollectStats c = false ->
  errors_of (events (Gather L g fs c)) =
  errors_of (trace (file_pass L g fs c)).
Proof.
  intros Hoff.
  rewrite (Gather_events_shape L g fs c [] (stats_events_off c Hoff)).
  rewrite !errors_of_app. simpl. case_decide; simpl; by rewrite app_nil_r.
Qed.

Lemma file_pass_fields (L : stdlib) (g : pkgvars) (fs : filesystem)
    (c : Conntrack) :
  fields (file_pass L g fs c) =
  fold_left (fun m cand => field_update L fs cand.1 cand.2 m)
    (candidates (Dirs (setDefaults g c)) (Files (setDefaults g c))) ∅.
Proof. by rewrite file_pass_visit_all, fields_visit_all. Qed.

Lemma file_pass_trace (L : stdlib) (g : pkgvars) (fs : filesystem)
    (c : Conntrack) :
  trace (file_pass L g fs c) =
  flat_map (fun cand => visit_events L fs cand.1 cand.2)
    (candidates (Dirs (setDefaults g c)) (Files (setDefaults g c))).
Proof. by rewrite file_pass_visit_all, trace_visit_all. Qed.

Lemma filter_none {A : Type} (P : A -> Prop) `{forall x, Decision (P x)}
    (l : list A) :
  (forall x, x ∈ l -> ~ P x) -> filter P l = [].
Proof.
  induction l as [|x l IH]; intros Hl; [done|].
  rewrite filter_cons, decide_False by (apply Hl, list_elem_of_here).
  apply IH. intros y Hy. apply Hl. by apply list_elem_of_further.
Qed.

(** The fields records of a cycle, whether it returns or panics. *)
Lemma Gather_fields_records_cases (L : stdlib) (g : pkgvars) (fs : filesystem)
    (c : Conntrack) :
  fields_records_of (events (Gather L g fs c)) = []
  \/ fields_records_of (events (Gather L g fs c)) =
     [(inputName, fields (file_pass L g fs c), ∅)].
Proof.
  destruct (stats_events c) as [evs|] eqn:Hevs.
  - rewrite (Gather_events_shape L g fs c evs Hevs), !fields_records_of_app.
    rewrite (fields_records_of_file_events _ (file_pass_events_file L g fs c)).
    rewrite (stats_events_no_fields_record c evs Hevs).
    case_decide; [by left|by right].
  - left. rewrite Gather_decompose. simpl. rewrite Hevs. unfold events. simpl.
    apply fields_records_of_file_events, file_pass_events_file.
Qed.

(** ** What the cycle collects *)

(** X1.  When none of the configured (directory, file) pairs exists, the
    cycle fails with the "module not loaded" error and does so quietly: no
    file is read, the file pass reports no error, and no fields record is
    emitted. *)
Theorem no_file_found_fails_quietly (L : stdlib) (g : pkgvars)
    (fs : filesystem) (c : Conntrack) :
  (CollectStats c = true -> is_Some (ps c)) ->
  (forall dir file,
     dir ∈ Dirs (setDefaults g c) -> file ∈ Files (setDefaults g c) ->
     fs (Join L dir file) = Absent) ->
  let r := Gather L g fs c in
  result r = Return (Some errNotLoaded)
  /\ fields_records_of (events r) = []
  /\ reads_of (events r) = []
  /\ errors_of (trace (file_pass L g fs c)) = [].
Proof.
  intros Hwired Habs r. subst r.
  assert (forall dir file,
            (dir, file) ∈ candidates (Dirs (setDefaults g c))
                                     (Files (setDefaults g c)) ->
            fs (Join L dir file) = Absent) as Hc.
  { intros dir file Hin. apply elem_of_candidates in Hin as [Hd Hf]. auto. }
  assert (fields (file_pass L g fs c) = ∅) as Hempty.
  { rewrite file_pass_fields. by apply fold_field_update_absent. }
  rewrite (Gather_result L g fs c Hwired).
  rewrite (Gather_fields_records L g fs c Hwired).
  rewrite Gather_reads_of, file_pass_trace, reads_of_candidates.
  rewrite !decide_True by done. split; [done|]. split; [done|]. split.
  - rewrite filter_none; [done|]. intros [d f] Hin [_ Hne].
    by apply Hne, Hc.
  - apply errors_of_candidates_clean. intros dir file key Hin _.
    left. by apply Hc.
Qed.

Lemma no_file_found_fails_quietly_witness :
  let c := NewConntrack (Some (ps_ok [])) in
  let r := Gather refLib pkg_init (fs_of []) c in
  result r = Return (Some errNotLoaded)
  /\ fields_records_of (events r) = []
  /\ reads_of (events r) = [].
Proof.
  intros c r.
  assert (CollectStats c = true -> is_Some (ps c)) as Hwired.
  { intros _. exists (ps_ok []). reflexivity. }
  pose proof (no_file_found_fails_quietly refLib pkg_init (fs_of []) c Hwired
                (fun dir file _ _ => eq_refl)) as H.
  split; [exact (proj1 H)|].
  split; [exact (proj1 (proj2 H))|exact (proj1 (proj2 (proj2 H)))].
Defined.

(** X2.  Success and readable files.  A cycle that does not panic succeeds
    only if some configured directory holds a configured file whose name
    has an underscore and that can be read; and it does succeed as soon as
    one such file is read and parses. *)
Theorem success_and_readable_files (L : stdlib) (g : pkgvars) (fs : filesystem)
    (c : Conntrack) :
  (CollectStats c = true -> is_Some (ps c)) ->
  (result (Gather L g fs c) = Return None ->
   exists dir file s,
     dir ∈ Dirs (setDefaults g c) /\ file ∈ Files (setDefaults g c)
     /\ has_underscore file = true
     /\ fs (Join L dir file) = Regular s)
  /\ (forall dir file s x,
        dir ∈ Dirs (setDefaults g c) -> file ∈ Files (setDefaults g c) ->
        has_underscore file = true ->
        fs (Join L dir file) = Regular s ->
        ParseFloat L (TrimSpace L s) = (x, None) ->
        result (Gather L g fs c) = Return None).
Proof.
  intros Hwired. rewrite (Gather_result L g fs c Hwired). split.
  - case_decide as He; [discriminate|]. intros _.
    apply map_choose in He as (key & v & Hv).
    rewrite file_pass_fields in Hv.
    apply fold_field_update_origin in Hv
      as [Hv|(dir & file & s & Hin & Hk & Hs & _)].
    { by rewrite lookup_empty in Hv. }
    apply elem_of_candidates in Hin as [Hd Hf].
    exists dir, file, s. repeat split; try done.
    apply metricKey_Some_iff. by exists key.
  - intros dir file s x Hd Hf Hu Hs _.
    apply metricKey_Some_iff in Hu as [key Hk].
    assert (is_Some (fields (file_pass L g fs c) !! key)) as [v Hv].
    { rewrite file_pass_fields.
      apply (fold_field_update_readable L fs _ dir file key s); [|done..].
      by apply elem_of_candidates. }
    rewrite decide_False; [done|]. intros He.
    by rewrite He, lookup_empty in Hv.
Qed.

Lemma success_and_readable_files_witness :
  let c := configured None ["/d"] ["nf_conntrack_max"] false false in
  let fs := fs_of [("/d/nf_conntrack_max", Regular "262144")] in
  (CollectStats c = true -> is_Some (ps c))
  /\ result (Gather refLib pkg_init fs c) = Return None.
Proof.
  intros c fs.
  assert (CollectStats c = true -> is_Some (ps c)) as Hwired.
  { intros H. discriminate H. }
  split; [exact Hwired|].
  apply (proj2 (success_and_readable_files refLib pkg_init fs c Hwired)
           "/d" "nf_conntrack_max" "262144" 262144%float).
  - apply list_elem_of_here.
  - apply list_elem_of_here.
  - reflexivity.
  - reflexivity.
  - reflexivity.
Defined.

(** X3.  Every entry of an emitted fields record was read from a file: its
    key is the metric key of a configured filename, and its value is the
    [float64] that [ParseFloat] returned for the trimmed contents of that
    file in a configured directory. *)
Theorem fields_record_entries_come_from_files (L : stdlib) (g : pkgvars)
    (fs : filesystem) (c : Conntrack)
    (name : string) (flds : gmap string iface) (tags : gmap string string)
    (key : string) (v : iface) :
  (name, flds, tags) ∈ fields_records_of (events (Gather L g fs c)) ->
  flds !! key = Some v ->
  exists dir file s,
    dir ∈ Dirs (setDefaults g c) /\ file ∈ Files (setDefaults g c)
    /\ metricKey file = Some key
    /\ fs (Join L dir file) = Regular s
    /\ v = Float64 (ParseFloat L (TrimSpace L s)).1.
Proof.
  intros Hrec Hv.
  destruct (Gather_fields_records_cases L g fs c) as [Hnil|Hone].
  { rewrite Hnil in Hrec. by apply elem_of_nil in Hrec. }
  rewrite Hone in Hrec. apply list_elem_of_singleton in Hrec.
  injection Hrec as -> -> ->. rewrite file_pass_fields in Hv.
  apply fold_field_update_origin in Hv
    as [Hv|(dir & file & s & Hin & Hk & Hs & ->)].
  { by rewrite lookup_empty in Hv. }
  apply elem_of_candidates in Hin as [Hd Hf].
  by exists dir, file, s.
Qed.

Lemma fields_record_entries_come_from_files_witness :
  let c := configured None ["/d"] ["nf_conntrack_max"] false false in
  let fs := fs_of [("/d/nf_conntrack_max", Regular "262144")] in
  exists dir file s,
    dir ∈ Dirs (setDefaults pkg_init c) /\ file ∈ Files (setDefaults pkg_init c)
    /\ metricKey file = Some "ip_conntrack_max"
    /\ fs (Join refLib dir file) = Regular s
    /\ Float64 262144 = Float64 (ParseFloat refLib (TrimSpace refLib s)).1.
Proof.
  intros c fs.
  apply (fields_record_entries_come_from_files refLib pkg_init fs c
           inputName {[ "ip_conntrack_max" := Float64 262144 ]} ∅
           "ip_conntrack_max" (Float64 262144)).
  - vm_compute. apply list_elem_of_here.
  - reflexivity.
Defined.

Lemma candidates_app (ds1 ds2 files : list string) :
  candidates (ds1 ++ ds2) files = candidates ds1 files ++ candidates ds2 files.
Proof. unfold candidates. apply flat_map_app. Qed.

Lemma candidates_cons (dir : string) (dirs files : list string) :
  candidates (dir :: dirs) files =
  map (fun file => (dir, file)) files ++ candidates dirs files.
Proof. reflexivity. Qed.

(** X4.  Which value a key gets.  Take the last configured directory in
    which a file of that key can be read and, in it, the last such file in
    the order of [Files]: when that file parses, the field is its value.
    Directories and files that come later and are absent or unreadable
    leave it as it is. *)
Theorem last_readable_file_decides (L : stdlib) (g : pkgvars) (fs : filesystem)
    (c : Conntrack) (ds1 ds2 fs1 fs2 : list string) (dir file key s : string)
    (x : float) :
  Dirs (setDefaults g c) = ds1 ++ dir :: ds2 ->
  Files (setDefaults g c) = fs1 ++ file :: fs2 ->
  metricKey file = Some key ->
  fs (Join L dir file) = Regular s ->
  ParseFloat L (TrimSpace L s) = (x, None) ->
  (forall f s', f ∈ fs2 -> metricKey f = Some key ->
                fs (Join L dir f) <> Regular s') ->
  (forall d f s', d ∈ ds2 -> f ∈ fs1 ++ file :: fs2 ->
                  metricKey f = Some key -> fs (Join L d f) <> Regular s') ->
  fields (file_pass L g fs c) !! key = Some (Float64 x).
Proof.
  intros Hd Hf Hk Hs Hp Hfiles Hdirs.
  rewrite file_pass_fields, Hd, Hf, candidates_app, candidates_cons.
  rewrite map_app. simpl. rewrite <- !app_assoc, app_assoc. simpl.
  replace x with (ParseFloat L (TrimSpace L s)).1 by (by rewrite Hp).
  apply fold_field_update_last; [done..|].
  intros d f s' Hin Hkf. apply elem_of_app in Hin as [Hin|Hin].
  - apply list_elem_of_fmap in Hin as (f' & [= -> ->] & Hin).
    by apply Hfiles.
  - apply elem_of_candidates in Hin as [Hin1 Hin2]. by apply Hdirs.
Qed.

Lemma last_readable_file_decides_witness :
  let c := configured None ["/a"; "/b"; "/c"] ["ip_conntrack_count"]
             false false in
  let fs := fs_of [("/a/ip_conntrack_count", Regular "5");
                   ("/b/ip_conntrack_count", Regular "7");
                   ("/c/ip_conntrack_count", Unreadable "permission denied")] in
  fields (file_pass refLib pkg_init fs c) !! "ip_conntrack_count" =
  Some (Float64 7).
Proof.
  intros c fs.
  apply (last_readable_file_decides refLib pkg_init fs c
           ["/a"] ["/c"] [] [] "/b" "ip_conntrack_count" "ip_conntrack_count"
           "7" 7%float);
    try reflexivity.
  - intros f s' Hin. by apply elem_of_nil in Hin.
  - intros d f s' Hd Hf _.
    apply list_elem_of_singleton in Hd as ->.
    apply list_elem_of_singleton in Hf as ->.
    discriminate.
Defined.

(** X5.  Listing the directories a second time changes nothing in the
    field set: the loop overwrites what it collects, it never removes a
    key. *)
Theorem repeated_dirs_same_fields (L : stdlib) (fs : filesystem)
    (dirs files : list string) :
  fields (dirs_loop L fs (dirs ++ dirs) files st_init) =
  fields (dirs_loop L fs dirs files st_init).
Proof.
  rewrite !dirs_loop_visit_all, !fields_visit_all, candidates_app.
  rewrite fold_left_app. simpl.
  rewrite fold_field_update_union. apply (idemp_L (∪)).
Qed.

(** X6.  The file-system calls of a cycle.  [os.Stat] is called once for
    every (directory, file) pair whose filename has a metric key, in loop
    order, and for nothing else; [ioutil.ReadFile] is called for those of
    them that [os.Stat] found.  So every path that is read was tested
    before, and no path outside the configured pairs is touched. *)
Theorem file_system_calls (L : stdlib) (g : pkgvars) (fs : filesystem)
    (c : Conntrack) :
  let cands :=
    candidates (Dirs (setDefaults g c)) (Files (setDefaults g c)) in
  let r := Gather L g fs c in
  stats_of (events r) = (fun cand => Join L cand.1 cand.2) <$> filter keyed cands
  /\ reads_of (events r) =
     (fun cand => Join L cand.1 cand.2)
       <$> filter (fun cand => keyed cand /\ fs (Join L cand.1 cand.2) <> Absent)
                  cands
  /\ (forall path, path ∈ reads_of (events r) -> path ∈ stats_of (events r)).
Proof.
  intros cands r. subst cands r.
  rewrite Gather_stats_of, Gather_reads_of, file_pass_trace.
  rewrite stats_of_candidates, reads_of_candidates.
  split; [done|]. split; [done|].
  intros path Hin.
  apply list_elem_of_fmap in Hin as (cand & -> & Hin).
  apply list_elem_of_filter in Hin as [[Hkeyed _] Hin].
  apply list_elem_of_fmap. exists cand. split; [done|].
  by apply list_elem_of_filter.
Qed.

Lemma file_system_calls_witness :
  let fs := fs_of [("/d/ip_conntrack_count", Regular "5");
                   ("/d/ip_conntrack_max", Unreadable "permission denied")] in
  let c := configured None ["/d"; "/e"]
             ["baz"; "ip_conntrack_count"; "ip_conntrack_max"] false false in
  stats_of (events (Gather refLib pkg_init fs c)) =
    ["/d/ip_conntrack_count"; "/d/ip_conntrack_max";
     "/e/ip_conntrack_count"; "/e/ip_conntrack_max"]
  /\ reads_of (events (Gather refLib pkg_init fs c)) =
    ["/d/ip_conntrack_count"; "/d/ip_conntrack_max"]
  /\ "/d/ip_conntrack_max" ∈ stats_of (events (Gather refLib pkg_init fs c)).
Proof.
  intros fs c.
  pose proof (file_system_calls refLib pkg_init fs c) as (Hs & Hr & Hsub).
  split; [exact Hs|]. split; [exact Hr|].
  apply Hsub. rewrite Hr. apply list_elem_of_further, list_elem_of_here.
Defined.

(** X7.  No false alarm.  With the statistics pass off, a cycle in which
    every configured file is either absent or read and parsed reports no
    error at all: files that are missing are not errors. *)
Theorem clean_cycle_reports_nothing (L : stdlib) (g : pkgvars)
    (fs : filesystem) (c : Conntrack) :
  CollectStats c = false ->
  (forall dir file key,
     dir ∈ Dirs (setDefaults g c) -> file ∈ Files (setDefaults g c) ->
     metricKey file = Some key ->
     fs (Join L dir file) = Absent
     \/ exists s x, fs (Join L dir file) = Regular s
                    /\ ParseFloat L (TrimSpace L s) = (x, None)) ->
  errors_of (events (Gather L g fs c)) = [].
Proof.
  intros Hoff Hclean.
  rewrite (Gather_errors_stats_off L g fs c Hoff), file_pass_trace.
  apply errors_of_candidates_clean. intros dir file key Hin.
  apply elem_of_candidates in Hin as [Hd Hf]. by apply Hclean.
Qed.

Lemma clean_cycle_reports_nothing_witness :
  let fs := fs_of [("/proc/sys/net/netfilter/nf_conntrack_count", Regular "12");
                   ("/proc/sys/net/netfilter/nf_conntrack_max", Regular "262144")] in
  CollectStats init_factory = false
  /\ errors_of (events (Gather refLib pkg_init fs init_factory)) = [].
Proof.
  intros fs. split; [reflexivity|].
  apply (clean_cycle_reports_nothing refLib pkg_init fs init_factory eq_refl).
  intros dir file key Hd Hf _.
  repeat (apply elem_of_cons in Hd as [->|Hd]);
    [| |by apply elem_of_nil in Hd];
    repeat (apply elem_of_cons in Hf as [->|Hf]);
    try (by apply elem_of_nil in Hf);
    try (left; reflexivity);
    right; eexists _, _; split; reflexivity.
Defined.

(** ** The statistics pass *)

(** X8.  With [collect_stats] off the statistics pass does nothing at all:
    the provider is not called, no counter record is emitted, and the cycle
    returns, also when the collector has no provider ([ps] nil). *)
Theorem stats_off_never_calls_provider (L : stdlib) (g : pkgvars)
    (fs : filesystem) (c : Conntrack) :
  CollectStats c = false ->
  let r := Gather L g fs c in
  provider_calls_of (events r) = []
  /\ counters_of (events r) = []
  /\ result r =
     Return (if decide (fields (file_pass L g fs c) = ∅)
             then Some errNotLoaded else None).
Proof.
  intros Hoff r. subst r.
  assert (CollectStats c = true -> is_Some (ps c)) as Hwired.
  { rewrite Hoff. discriminate. }
  rewrite (Gather_result L g fs c Hwired).
  rewrite (Gather_events_shape L g fs c [] (stats_events_off c Hoff)).
  rewrite !provider_calls_of_app, !counters_of_app.
  rewrite (provider_calls_of_file_events _ (file_pass_events_file L g fs c)).
  rewrite (counters_of_file_events _ (file_pass_events_file L g fs c)).
  by case_decide.
Qed.

Lemma stats_off_never_calls_provider_witness :
  let c := configured None ["/d"] ["nf_conntrack_count"] false true in
  let r := Gather refLib pkg_init (fs_of [("/d/nf_conntrack_count", Regular "3")]) c in
  provider_calls_of (events r) = [] /\ counters_of (events r) = [].
Proof.
  intros c r.
  pose proof (stats_off_never_calls_provider refLib pkg_init
                (fs_of [("/d/nf_conntrack_count", Regular "3")]) c eq_refl) as H.
  split; [exact (proj1 H)|exact (proj1 (proj2 H))].
Defined.

(** X9.  With [collect_stats] on and no provider ([ps] nil, as in the
    collector [init] registers), the cycle panics at the provider call:
    the file pass has run and reported its errors, but nothing it collected
    is emitted, neither a fields record nor a counter record. *)
Theorem nil_provider_panics (L : stdlib) (g : pkgvars) (fs : filesystem)
    (c : Conntrack) :
  CollectStats c = true ->
  ps c = None ->
  let r := Gather L g fs c in
  result r = Panic
  /\ events r = trace (file_pass L g fs c)
  /\ fields_records_of (events r) = []
  /\ counters_of (events r) = [].
Proof.
  intros Hon Hnil r. subst r.
  assert (stats_events c = None) as Hnone.
  { unfold stats_events. by rewrite Hon, Hnil. }
  rewrite Gather_decompose. simpl. rewrite Hnone. unfold result, events. simpl.
  split; [done|]. split; [done|]. split.
  - apply fields_records_of_file_events, file_pass_events_file.
  - apply counters_of_file_events, file_pass_events_file.
Qed.

Lemma nil_provider_panics_witness :
  let c := configured (ps init_factory) (Dirs init_factory)
             (Files init_factory) true false in
  let fs := fs_of [("/proc/sys/net/netfilter/nf_conntrack_count", Regular "12")] in
  fields (file_pass refLib pkg_init fs c) =
    {[ "ip_conntrack_count" := Float64 12 ]}
  /\ result (Gather refLib pkg_init fs c) = Panic
  /\ fields_records_of (events (Gather refLib pkg_init fs c)) = [].
Proof.
  intros c fs. split; [vm_compute; reflexivity|].
  pose proof (nil_provider_panics refLib pkg_init fs c eq_refl eq_refl) as H.
  split; [exact (proj1 H)|exact (proj1 (proj2 (proj2 H)))].
Defined.

Lemma cpuTags_percpu_inj (i j : nat) :
  cpuTags true i = cpuTags true j -> i = j.
Proof.
  unfold cpuTags. intros Heq.
  assert (({[ "cpu" := "cpu" +:+ pretty i ]} : gmap string string) !! "cpu" =
          ({[ "cpu" := "cpu" +:+ pretty j ]} : gmap string string) !! "cpu")
    as Hl by (by rewrite Heq).
  rewrite !lookup_singleton_eq in Hl. injection Hl as Hl.
  rewrite !append_nil_l in Hl. by apply (inj pretty).
Qed.

(** X10.  With [percpu] on, the records of different entries carry
    different [cpu] tags: record [i] is tagged with the decimal numeral of
    [i], and no two indices share one. *)
Theorem percpu_tags_distinct (L : stdlib) (g : pkgvars) (fs : filesystem)
    (c : Conntrack) (p : PS) (i j : nat)
    (ri rj : string * gmap string iface * gmap string string) :
  CollectStats c = true ->
  ps c = Some p ->
  PerCPU c = true ->
  counters_of (events (Gather L g fs c)) !! i = Some ri ->
  counters_of (events (Gather L g fs c)) !! j = Some rj ->
  i <> j ->
  ri.2 <> rj.2.
Proof.
  intros Hon Hp Hper Hi Hj Hne Htags.
  rewrite (Gather_counters L g fs c p _ _ Hon Hp (surjective_pairing _)) in Hi, Hj.
  rewrite list_lookup_imap in Hi, Hj. rewrite Hper in Hi, Hj.
  destruct ((NetConntrack p true).1 !! i) as [si|]; [|done].
  destruct ((NetConntrack p true).1 !! j) as [sj|]; [|done].
  simpl in Hi, Hj. injection Hi as <-. injection Hj as <-. simpl in Htags.
  by apply Hne, cpuTags_percpu_inj.
Qed.

Lemma percpu_tags_distinct_witness :
  let c := configured (Some (ps_ok [sts_test; sts_test])) [] [] true true in
  ({[ "cpu" := "cpu0" ]} : gmap string string) <> {[ "cpu" := "cpu1" ]}.
Proof.
  intros c.
  exact (percpu_tags_distinct refLib pkg_init (fs_of []) c
           (ps_ok [sts_test; sts_test]) 0 1
           (inputName, statFields sts_test, {[ "cpu" := "cpu0" ]})
           (inputName, statFields sts_test, {[ "cpu" := "cpu1" ]})
           eq_refl eq_refl eq_refl eq_refl eq_refl (O_S 0)).
Defined.

(** X11.  The metric key, read backwards.  A filename has a key only if it
    splits at its first underscore into a part without underscore and a
    suffix, the key being ["ip_"] and that suffix; and a key is its own key,
    so naming a file by its key changes nothing. *)
Theorem metricKey_inversion (file key : string) :
  metricKey file = Some key ->
  (exists pre suf,
     file = pre +:+ "_" +:+ suf /\ has_underscore pre = false
     /\ key = "ip_" +:+ suf)
  /\ metricKey key = Some key.
Proof.
  intros Hk.
  assert (has_underscore file = true) as Hu.
  { apply metricKey_Some_iff. by exists key. }
  destruct (has_underscore_split file Hu) as (pre & suf & -> & Hpre).
  rewrite (metricKey_split pre suf Hpre) in Hk. injection Hk as <-.
  split; [by exists pre, suf|].
  exact (metricKey_split "ip" suf eq_refl).
Qed.

Lemma metricKey_inversion_witness :
  metricKey "ip_conntrack_max" = Some "ip_conntrack_max".
Proof.
  exact (proj2 (metricKey_inversion "nf_conntrack_max" "ip_conntrack_max" eq_refl)).
Defined.

(** ** Defaults and the receiver *)

Lemma collector_after_Gather (L : stdlib) (g : pkgvars) (fs : filesystem)
    (c : Conntrack) :
  collector_after (Gather L g fs c) = setDefaults g c.
Proof.
  unfold collector_after, Gather.
  destruct (stats_pass _ _) as [st'|]; [|reflexivity].
  by destruct (finish st').
Qed.

Lemma setDefaults_configured (g : pkgvars) (c : Conntrack) :
  Dirs c <> [] -> Files c <> [] -> setDefaults g c = c.
Proof.
  destruct c as [p path dirs files cs pc]. simpl. intros Hd Hf.
  destruct dirs as [|d dirs]; [done|]. destruct files as [|f files]; [done|].
  reflexivity.
Qed.

Lemma setDefaults_filled (g : pkgvars) (c : Conntrack) :
  dfltDirs g <> [] -> dfltFiles g <> [] ->
  Dirs (setDefaults g c) <> [] /\ Files (setDefaults g c) <> [].
Proof.
  intros Hd Hf. unfold setDefaults.
  destruct c as [p path dirs files cs pc]. simpl.
  destruct dirs, files; simpl; split; done.
Qed.

Lemma Gather_setDefaults (L : stdlib) (g g' : pkgvars) (fs : filesystem)
    (c : Conntrack) :
  setDefaults g c = setDefaults g' c -> Gather L g fs c = Gather L g' fs c.
Proof. intros Heq. unfold Gather. by rewrite Heq. Qed.

(** X12.  The defaults are taken once.  [Gather] writes the lists it uses
    into the collector, so after a first cycle run with non-empty package
    defaults, re-assigning [dfltDirs] and [dfltFiles], as [restoreDflts]
    does, has no effect on that collector: its next cycle is the first one
    again. *)
Theorem defaults_kept_after_restoreDflts (L : stdlib) (g : pkgvars)
    (fs : filesystem) (c : Conntrack) (savedFiles savedDirs : list string) :
  dfltDirs g <> [] ->
  dfltFiles g <> [] ->
  Gather L (restoreDflts savedFiles savedDirs g) fs
    (collector_after (Gather L g fs c)) =
  Gather L g fs c.
Proof.
  intros Hd Hf. rewrite collector_after_Gather.
  destruct (setDefaults_filled g c Hd Hf) as [Hd1 Hf1].
  rewrite (Gather_setDefaults L (restoreDflts savedFiles savedDirs g) g fs
             (setDefaults g c)).
  - unfold Gather. by rewrite setDefaults_idem.
  - by rewrite (setDefaults_configured _ _ Hd1 Hf1), setDefaults_idem.
Qed.

Lemma defaults_kept_after_restoreDflts_witness :
  let g := {| dfltDirs := ["/tmp/tmp1"]; dfltFiles := ["nf_conntrack_count"] |} in
  let fs := fs_of [("/tmp/tmp1/nf_conntrack_count", Regular "1234321")] in
  Gather refLib (restoreDflts (dfltFiles pkg_init) (dfltDirs pkg_init) g) fs
    (collector_after (Gather refLib g fs init_factory)) =
  Gather refLib g fs init_factory.
Proof.
  intros g fs.
  apply (defaults_kept_after_restoreDflts refLib g fs init_factory
           (dfltFiles pkg_init) (dfltDirs pkg_init));
    discriminate.
Defined.

(** X13.  A collector with both [Dirs] and [Files] configured does not see
    the package defaults: the cycle is the same whatever they are, and it
    leaves the collector as it was. *)
Theorem configured_lists_override_defaults (L : stdlib) (g g' : pkgvars)
    (fs : filesystem) (c : Conntrack) :
  Dirs c <> [] ->
  Files c <> [] ->
  Gather L g fs c = Gather L g' fs c
  /\ collector_after (Gather L g fs c) = c.
Proof.
  intros Hd Hf. split.
  - apply Gather_setDefaults.
    by rewrite !setDefaults_configured.
  - by rewrite collector_after_Gather, setDefaults_configured.
Qed.

Lemma configured_lists_override_defaults_witness :
  let c := configured None ["/tmp/x"] ["ip_conntrack_count"] false false in
  let fs := fs_of [("/tmp/x/ip_conntrack_count", Regular "1234321")] in
  Gather refLib pkg_init fs c =
    Gather refLib {| dfltDirs := []; dfltFiles := [] |} fs c
  /\ collector_after (Gather refLib pkg_init fs c) = c.
Proof.
  intros c fs.
  apply (configured_lists_override_defaults refLib pkg_init
           {| dfltDirs := []; dfltFiles := [] |} fs c); discriminate.
Defined.

(** ** The two passes do not interfere *)

(** X14.  The counter records of a cycle depend on the collector and its
    provider only: the file system, the package defaults and what the file
    pass read, reported or failed to parse change none of them. *)
Theorem counters_independent_of_files (L L' : stdlib) (g g' : pkgvars)
    (fs fs' : filesystem) (c : Conntrack) :
  counters_of (events (Gather L g fs c)) =
  counters_of (events (Gather L' g' fs' c)).
Proof.
  assert (forall L g fs evs, stats_events c = Some evs ->
            counters_of (events (Gather L g fs c)) = counters_of evs) as Hsome.
  { intros L0 g0 fs0 evs Hevs.
    rewrite (Gather_events_shape L0 g0 fs0 c evs Hevs), !counters_of_app.
    rewrite (counters_of_file_events _ (file_pass_events_file L0 g0 fs0 c)).
    case_decide; simpl; by rewrite app_nil_r. }
  assert (forall L g fs, stats_events c = None ->
            counters_of (events (Gather L g fs c)) = []) as Hnone.
  { intros L0 g0 fs0 Hevs. rewrite Gather_decompose. simpl. rewrite Hevs.
    apply counters_of_file_events, file_pass_events_file. }
  destruct (stats_events c) as [evs|] eqn:Hevs.
  - by rewrite (Hsome L g fs evs), (Hsome L' g' fs' evs).
  - by rewrite (Hnone L g fs), (Hnone L' g' fs').
Qed.

Lemma file_pass_same_lists (L : stdlib) (g : pkgvars) (fs : filesystem)
    (c1 c2 : Conntrack) :
  Dirs c1 = Dirs c2 -> Files c1 = Files c2 ->
  file_pass L g fs c1 = file_pass L g fs c2.
Proof.
  intros Hd Hf. unfold file_pass.
  assert (Dirs (setDefaults g c1) = Dirs (setDefaults g c2)
          /\ Files (setDefaults g c1) = Files (setDefaults g c2)) as [-> ->];
    [|done].
  unfold setDefaults. rewrite Hd.
  destruct c1 as [p1 ? d1 f1 ? ?], c2 as [p2 ? d2 f2 ? ?]. simpl in *. subst.
  by repeat (case_decide; simpl).
Qed.

(** X15.  The fields record and the result of a cycle that does not panic
    depend on [Dirs] and [Files] only: turning the statistics pass on or
    off, switching [percpu], or changing the provider (one that fails
    included) changes neither. *)
Theorem fields_independent_of_stats (L : stdlib) (g : pkgvars)
    (fs : filesystem) (c1 c2 : Conntrack) :
  Dirs c1 = Dirs c2 ->
  Files c1 = Files c2 ->
  (CollectStats c1 = true -> is_Some (ps c1)) ->
  (CollectStats c2 = true -> is_Some (ps c2)) ->
  result (Gather L g fs c1) = result (Gather L g fs c2)
  /\ fields_records_of (events (Gather L g fs c1)) =
     fields_records_of (events (Gather L g fs c2)).
Proof.
  intros Hd Hf Hw1 Hw2.
  rewrite (Gather_result L g fs c1 Hw1), (Gather_result L g fs c2 Hw2).
  rewrite (Gather_fields_records L g fs c1 Hw1).
  rewrite (Gather_fields_records L g fs c2 Hw2).
  by rewrite (file_pass_same_lists L g fs c1 c2 Hd Hf).
Qed.

Lemma fields_independent_of_stats_witness :
  let fs := fs_of [("/proc/sys/net/netfilter/nf_conntrack_count", Regular "12")] in
  result (Gather refLib pkg_init fs init_factory) =
    result (Gather refLib pkg_init fs (NewConntrack (Some ps_failing)))
  /\ fields_records_of (events (Gather refLib pkg_init fs init_factory)) =
     fields_records_of
       (events (Gather refLib pkg_init fs (NewConntrack (Some ps_failing)))).
Proof.
  intros fs.
  apply (fields_independent_of_stats refLib pkg_init fs init_factory
           (NewConntrack (Some ps_failing)) eq_refl eq_refl).
  - intros H. discriminate H.
  - intros _. exists ps_failing. reflexivity.
Defined.

(** ** Whole cycles *)

(** X16.  One directory, one file that is read and parses, statistics off:
    the cycle tests the path, reads it, emits one fields record holding the
    parsed value under the metric key, with no tag, and returns nil; it
    reports nothing and leaves the collector as it was. *)
Theorem single_file_cycle (L : stdlib) (g : pkgvars) (fs : filesystem)
    (p : option PS) (percpu : bool) (dir file key s : string) (x : float) :
  metricKey file = Some key ->
  fs (Join L dir file) = Regular s ->
  ParseFloat L (TrimSpace L s) = (x, None) ->
  Gather L g fs (configured p [dir] [file] false percpu) =
  (configured p [dir] [file] false percpu,
   [EvStat (Join L dir file); EvReadFile (Join L dir file);
    EvAddFields inputName {[ key := Float64 x ]} ∅],
   Return None).
Proof.
  intros Hk Hs Hp.
  unfold Gather, configured, setDefaults, dirs_loop, files_loop. simpl.
  unfold visit, os_Stat, ioutil_ReadFile. rewrite Hk, Hs. simpl. rewrite Hp.
  unfold finish. simpl.
  rewrite decide_False; [by rewrite insert_empty|].
  rewrite map_size_empty_iff. apply insert_non_empty.
Qed.

Lemma single_file_cycle_witness :
  Gather refLib pkg_init (fs_of [("/tmp/x/ip_conntrack_count", Regular "1234321")])
    (configured None ["/tmp/x"] ["ip_conntrack_count"] false false) =
  (configured None ["/tmp/x"] ["ip_conntrack_count"] false false,
   [EvStat "/tmp/x/ip_conntrack_count"; EvReadFile "/tmp/x/ip_conntrack_count";
    EvAddFields inputName {[ "ip_conntrack_count" := Float64 1234321 ]} ∅],
   Return None).
Proof.
  exact (single_file_cycle refLib pkg_init
           (fs_of [("/tmp/x/ip_conntrack_count", Regular "1234321")])
           None false "/tmp/x" "ip_conntrack_count" "ip_conntrack_count"
           "1234321" 1234321 eq_refl eq_refl eq_refl).
Defined.

Lemma size_list_to_set_le (l : list string) :
  size (list_to_set l : gset string) <= length l.
Proof.
  induction l as [|x l IH]; cbn [length].
  - by rewrite list_to_set_nil, size_empty.
  - rewrite list_to_set_cons, size_union_alt, size_singleton.
    assert (list_to_set l ∖ {[x]} ⊆ (list_to_set l : gset string)) as Hsub.
    { by apply subseteq_difference_l. }
    apply subseteq_size in Hsub. lia.
Qed.

Lemma length_omap_le {A B : Type} (f : A -> option B) (l : list A) :
  length (omap f l) <= length l.
Proof.
  induction l as [|x l IH]; [done|].
  change (omap f (x :: l)) with
    (match f x with Some y => y :: omap f l | None => omap f l end).
  destruct (f x); cbn [length]; lia.
Qed.

(** X17.  The field set has at most one entry per configured filename,
    however many directories are searched: its keys are metric keys of
    filenames. *)
Theorem field_set_size_bound (L : stdlib) (g : pkgvars) (fs : filesystem)
    (c : Conntrack) :
  size (fields (file_pass L g fs c)) <= length (Files (setDefaults g c)).
Proof.
  set (keys := omap metricKey (Files (setDefaults g c))).
  assert (dom (fields (file_pass L g fs c)) ⊆ (list_to_set keys : gset string))
    as Hsub.
  { intros key Hin. apply elem_of_dom in Hin as [v Hv].
    rewrite file_pass_fields in Hv.
    apply fold_field_update_origin in Hv
      as [Hv|(dir & file & s & Hin & Hk & _)].
    { by rewrite lookup_empty in Hv. }
    apply elem_of_candidates in Hin as [_ Hf].
    apply elem_of_list_to_set, list_elem_of_omap. by exists file. }
  apply subseteq_size in Hsub. rewrite size_dom in Hsub.
  pose proof (size_list_to_set_le keys).
  pose proof (length_omap_le metricKey (Files (setDefaults g c))).
  subst keys. lia.
Qed.

(** X18.  Order of a cycle that calls the provider: everything before the
    call is a file-system call or an error report of the file pass, and
    nothing after it touches the file system. *)
Theorem provider_called_after_file_pass (L : stdlib) (g : pkgvars)
    (fs : filesystem) (c : Conntrack) (p : PS) :
  CollectStats c = true ->
  ps c = Some p ->
  exists before after,
    events (Gather L g fs c) =
      before ++ EvNetConntrack (PerCPU c) :: after
    /\ before = trace (file_pass L g fs c)
    /\ Forall file_event before
    /\ Forall sink_event after
    /\ provider_calls_of after = [].
Proof.
  intros Hon Hp.
  pose proof (stats_events_called c p _ _ Hon Hp (surjective_pairing _)) as Hevs.
  rewrite (Gather_events_shape L g fs c _ Hevs).
  set (errs := match (NetConntrack p (PerCPU c)).2 with
               | Some e =>
                   [EvAddError
                      ("E! failed to retrieve conntrack statistics: " +:+ e)]
               | None => []
               end).
  set (recs := imap (fun i sts =>
                       EvAddCounter inputName (statFields sts)
                         (cpuTags (PerCPU c) i))
                    (NetConntrack p (PerCPU c)).1).
  set (last := if decide (fields (file_pass L g fs c) = ∅) then []
               else [EvAddFields inputName (fields (file_pass L g fs c)) ∅]).
  assert (Forall (fun e => sink_event e /\ provider_calls_of [e] = [])
            ((errs ++ recs) ++ last)) as Hall.
  { apply Forall_app. split; [apply Forall_app; split|].
    - subst errs. destruct (NetConntrack p (PerCPU c)).2; by repeat constructor.
    - subst recs. generalize (NetConntrack p (PerCPU c)).1. intros l.
      apply Forall_forall. intros e He.
      apply list_elem_of_lookup in He as [i Hi].
      rewrite list_lookup_imap in Hi.
      destruct (l !! i) as [sts|]; [|discriminate].
      injection Hi as <-. by split.
    - subst last. case_decide; by repeat constructor. }
  exists (trace (file_pass L g fs c)), ((errs ++ recs) ++ last).
  split; [reflexivity|]. split; [reflexivity|].
  split; [apply file_pass_events_file|]. split.
  - eapply Forall_impl; [exact Hall|]. by intros e [He _].
  - clearbody errs recs last.
    induction Hall as [|e l [_ He] _ IH]; [reflexivity|].
    change (e :: l) with ([e] ++ l). by rewrite provider_calls_of_app, He, IH.
Qed.

Lemma provider_called_after_file_pass_witness :
  let c := NewConntrack (Some (ps_ok [sts_test])) in
  exists before after,
    events (Gather refLib pkg_init (fs_of []) c) =
      before ++ EvNetConntrack false :: after
    /\ before = trace (file_pass refLib pkg_init (fs_of []) c)
    /\ Forall file_event before
    /\ Forall sink_event after
    /\ provider_calls_of after = [].
Proof.
  intros c.
  exact (provider_called_after_file_pass refLib pkg_init (fs_of []) c
           (ps_ok [sts_test]) eq_refl eq_refl).
Defined.

(** ** What a cycle never does *)

(** X19.  A cycle emits at most one fields record, and never an empty one:
    a fields record is named [conntrack], has no tag, and holds at least
    one field. *)
Theorem fields_record_never_empty (L : stdlib) (g : pkgvars) (fs : filesystem)
    (c : Conntrack) :
  length (fields_records_of (events (Gather L g fs c))) <= 1
  /\ forall name flds tags,
       (name, flds, tags) ∈ fields_records_of (events (Gather L g fs c)) ->
       name = inputName /\ tags = ∅ /\ flds <> ∅
       /\ flds = fields (file_pass L g fs c).
Proof.
  assert (fields_records_of (events (Gather L g fs c)) = []
          \/ (fields (file_pass L g fs c) <> ∅
              /\ fields_records_of (events (Gather L g fs c)) =
                 [(inputName, fields (file_pass L g fs c), ∅)])) as Hcases.
  { destruct (stats_events c) as [evs|] eqn:Hevs.
    - rewrite (Gather_events_shape L g fs c evs Hevs), !fields_records_of_app.
      rewrite (fields_records_of_file_events _
                 (file_pass_events_file L g fs c)).
      rewrite (stats_events_no_fields_record c evs Hevs).
      case_decide; [by left|by right].
    - left. rewrite Gather_decompose. simpl. rewrite Hevs.
      apply fields_records_of_file_events, file_pass_events_file. }
  destruct Hcases as [->|[Hne ->]]; simpl.
  - split; [lia|]. intros name flds tags Hin. by apply elem_of_nil in Hin.
  - split; [lia|]. intros name flds tags Hin.
    apply list_elem_of_singleton in Hin. by injection Hin as -> -> ->.
Qed.

Lemma fields_record_never_empty_witness :
  let fs := fs_of [("/tmp/x/ip_conntrack_count", Regular "1234321")] in
  let c := configured None ["/tmp/x"] ["ip_conntrack_count"] false false in
  ({[ "ip_conntrack_count" := Float64 1234321 ]} : gmap string iface) <> ∅.
Proof.
  intros fs c.
  refine (proj1 (proj2 (proj2
            (proj2 (fields_record_never_empty refLib pkg_init fs c)
               inputName {[ "ip_conntrack_count" := Float64 1234321 ]} ∅ _)))).
  vm_compute. apply list_elem_of_here.
Defined.

Lemma errors_of_visit_events_le (L : stdlib) (fs : filesystem)
    (dir file : string) :
  length (errors_of (visit_events L fs dir file)) <= 1.
Proof.
  unfold visit_events, visit, os_Stat, ioutil_ReadFile.
  destruct (metricKey file) as [key|]; simpl; [|lia].
  destruct (fs (Join L dir file)) as [|e|s]; simpl; [lia..|].
  destruct (ParseFloat L (TrimSpace L s)) as [x [e|]]; simpl; lia.
Qed.

Lemma errors_of_candidates_le (L : stdlib) (fs : filesystem)
    (cands : list (string * string)) :
  length (errors_of (flat_map (fun c => visit_events L fs c.1 c.2) cands))
  <= length cands.
Proof.
  induction cands as [|[d f] cands IH]; [done|]. cbn [flat_map length].
  rewrite errors_of_app, length_app.
  pose proof (errors_of_visit_events_le L fs d f). simpl in *. lia.
Qed.

Lemma length_candidates (dirs files : list string) :
  length (candidates dirs files) = length dirs * length files.
Proof.
  induction dirs as [|d dirs IH]; [done|].
  rewrite candidates_cons, length_app, length_map, IH. simpl. lia.
Qed.

Lemma errors_of_stats_events_le (c : Conntrack) (evs : list event) :
  stats_events c = Some evs -> length (errors_of evs) <= 1.
Proof.
  unfold stats_events. destruct (CollectStats c).
  2: { intros [= <-]. simpl. lia. }
  destruct (ps c) as [p|]; [|discriminate]. intros [= <-].
  unfold errors_of. cbn [omap list_omap].
  rewrite omap_app, omap_imap_None by done.
  destruct (NetConntrack p (PerCPU c)).2; simpl; lia.
Qed.

(** X20.  A cycle reports at most one error per (directory, file) pair, and
    one more for the provider: never more than
    [len(Dirs) * len(Files) + 1]. *)
Theorem error_reports_bounded (L : stdlib) (g : pkgvars) (fs : filesystem)
    (c : Conntrack) :
  length (errors_of (events (Gather L g fs c))) <=
  length (Dirs (setDefaults g c)) * length (Files (setDefaults g c)) + 1.
Proof.
  pose proof (errors_of_candidates_le L fs
                (candidates (Dirs (setDefaults g c)) (Files (setDefaults g c))))
    as Hfile.
  rewrite length_candidates, <- file_pass_trace in Hfile.
  destruct (stats_events c) as [evs|] eqn:Hevs.
  - rewrite (Gather_events_shape L g fs c evs Hevs), !errors_of_app.
    rewrite !length_app.
    pose proof (errors_of_stats_events_le c evs Hevs).
    case_decide; simpl; lia.
  - rewrite Gather_decompose. simpl. rewrite Hevs. unfold events. simpl. lia.
Qed.

(** ** The oracles of the tests *)

Lemma cut_nf_prefix (rest : string) :
  cut "nf_" ("nf_" +:+ rest) = Some ("", rest).
Proof. by destruct rest. Qed.

(** X21.  The expectations of the package tests are what the plugin
    computes: for a filename that begins with [nf_], the key is the name
    with [nf_] replaced by [ip_] (the oracle [fix_] of [TestConfigsUsed]);
    for a filename that begins with [ip_], the key is the filename itself
    (what [TestDefaultsUsed] looks up). *)
Theorem test_oracles_agree (rest : string) :
  metricKey ("nf_" +:+ rest) = Some (fix_ ("nf_" +:+ rest))
  /\ metricKey ("ip_" +:+ rest) = Some ("ip_" +:+ rest).
Proof.
  split.
  - unfold fix_, Replace1. rewrite cut_nf_prefix, append_nil_l.
    exact (metricKey_split "nf" rest eq_refl).
  - exact (metricKey_split "ip" rest eq_refl).
Qed.
